(** * Haystack preview components: batch creator, token limit helper and
    the OpenAI call helpers, embedded shallowly and verified.

  Source files embedded here:
  - [haystack/preview/components/batch/batch_creator.py]
  - [haystack/preview/components/generators/_helpers.py]
  - [haystack/preview/components/generators/openai/_helpers.py]  *)

From Stdlib Require Import List ZArith Lia String Ascii Bool Arith.
From Stdlib Require Import DecimalString PrimFloat.
Import ListNotations.

Set Warnings "-register-all".

Open Scope string_scope.
Open Scope list_scope.
Open Scope Z_scope.

(* ===================================================================== *)
(** * [batch_creator.py]: the class [BatchCreator]                        *)
(* ===================================================================== *)

Module BatchCreator.

Section WithItem.

(** [expected_type] only feeds the component's type declarations; the
    items themselves are opaque to [run]. *)
Variable Item : Type.

(** The instance attributes read or written by [run].  [max_batch_size]
    is [Optional[int]]: [None] is Python's [None]. *)
Record t : Type := mk {
  max_batch_size : option Z;
  batch : list Item
}.

(** [__init__]: [self.batch = []]; the default of [max_batch_size] is 0. *)
Definition init (max_batch_size : option Z) : t := mk max_batch_size [].

Definition default_max_batch_size : option Z := Some 0.

(** The dict returned by [run]: [{}] is [None], [{"batch": b}] is
    [Some b]. *)
Definition output : Type := option (list Item).

(** [len(self.batch) < self.max_batch_size], guarded by
    [self.max_batch_size is not None]. *)
Definition below_max (self : t) : bool :=
  match max_batch_size self with
  | None => false
  | Some m => Z.of_nat (List.length (batch self)) <? m
  end.

(** [BatchCreator.run] *)
Definition run (self : t) (item : Item) (release_batch : bool) : output * t :=
  (* self.batch.append(item) *)
  let self := mk (max_batch_size self) (batch self ++ [item]) in
  if negb release_batch && below_max self then
    (* return {} *)
    (None, self)
  else
    (* output = {"batch": self.batch}; self.batch = []; return output *)
    (Some (batch self), mk (max_batch_size self) []).

(** A sequence of calls on one instance, oldest first: for each call, the
    output it returned and the instance as the call left it. *)
Fixpoint run_all (self : t) (calls : list (Item * bool)) : list (output * t) :=
  match calls with
  | [] => []
  | (item, release_batch) :: rest =>
      let step := run self item release_batch in
      step :: run_all (snd step) rest
  end.

(** The batches among a list of outputs. *)
Fixpoint released (outs : list output) : list (list Item) :=
  match outs with
  | [] => []
  | None :: rest => released rest
  | Some b :: rest => b :: released rest
  end.

(** Calls that never set [release_batch]. *)
Definition unforced (items : list Item) : list (Item * bool) :=
  map (fun x => (x, false)) items.

(** The release condition in the words of the specification:
    [force_release OR (max_size > 0 AND len(buffer) >= max_size)], read on
    the buffer after the append.  It is compared with [run] below; [run] is
    not defined through it. *)
Definition spec_should_release (self : t) (item : Item) (release_batch : bool) : Prop :=
  release_batch = true \/
  exists m, max_batch_size self = Some m /\
            0 < m /\ m <= Z.of_nat (List.length (batch self ++ [item])).

End WithItem.

Arguments mk {Item}.
Arguments max_batch_size {Item}.
Arguments batch {Item}.
Arguments init {Item}.
Arguments below_max {Item}.
Arguments run {Item}.
Arguments run_all {Item}.
Arguments released {Item}.
Arguments unforced {Item}.
Arguments spec_should_release {Item}.

End BatchCreator.

(* ===================================================================== *)
(** * Python values and built-ins used by the helpers                     *)
(* ===================================================================== *)

Module Py.

(** [xs[:k]] on a list: a negative [k] counts from the end. *)
Definition slice_to {A : Type} (xs : list A) (k : Z) : list A :=
  if 0 <=? k then firstn (Z.to_nat k) xs
  else firstn (Z.to_nat (Z.of_nat (List.length xs) + k)) xs.

(** Strings are sequences of characters with code points below 256.
    [str.isspace] on one such character: TAB..CR, FS..US, space, NEL, NBSP. *)
Definition isspace (c : ascii) : bool :=
  let n := nat_of_ascii c in
  ((9 <=? n) && (n <=? 13) || (28 <=? n) && (n <=? 32)
   || (n =? 133) || (n =? 160))%nat.

Fixpoint lstrip (s : string) : string :=
  match s with
  | EmptyString => EmptyString
  | String c rest => if isspace c then lstrip rest else s
  end.

Fixpoint rstrip (s : string) : string :=
  match s with
  | EmptyString => EmptyString
  | String c rest =>
      match rstrip rest with
      | EmptyString => if isspace c then EmptyString else String c EmptyString
      | r => String c r
      end
  end.

(** [s.strip()] *)
Definition strip (s : string) : string := rstrip (lstrip s).

(** Views used to state what [strip] does. *)
Fixpoint all_space (s : string) : bool :=
  match s with
  | EmptyString => true
  | String c rest => isspace c && all_space rest
  end.

Definition starts_with_space (s : string) : bool :=
  match s with
  | EmptyString => false
  | String c _ => isspace c
  end.

Fixpoint ends_with_space (s : string) : bool :=
  match s with
  | EmptyString => false
  | String c EmptyString => isspace c
  | String _ rest => ends_with_space rest
  end.

(** [sub in s] for two strings. *)
Fixpoint str_contains (sub s : string) : bool :=
  String.prefix sub s ||
  match s with
  | EmptyString => false
  | String _ rest => str_contains sub rest
  end.

(** [str(n)] for an [int]. *)
Definition str_of_int (n : Z) : string :=
  DecimalString.NilZero.string_of_int (Z.to_int n).

Definition newline : string := String (ascii_of_nat 10) EmptyString.

(** Characters of a string, each as a one-character string. *)
Fixpoint chars (s : string) : list string :=
  match s with
  | EmptyString => []
  | String c rest => String c EmptyString :: chars rest
  end.

(** What [json.loads] returns: [None], [bool], [int], [float], [str],
    [list], and [dict] with string keys (in document order). *)
Inductive value : Type :=
| Null
| Bool (b : bool)
| Int (n : Z)
| Float (f : PrimFloat.float)
| Str (s : string)
| Arr (xs : list value)
| Obj (kvs : list (string * value)).

(** [bool(v)] *)
Definition truthy (v : value) : bool :=
  match v with
  | Null => false
  | Bool b => b
  | Int n => negb (n =? 0)
  | Float f => negb (PrimFloat.eqb f PrimFloat.zero)
  | Str s => negb (String.eqb s EmptyString)
  | Arr xs => match xs with [] => false | _ => true end
  | Obj kvs => match kvs with [] => false | _ => true end
  end.

(** [v == s] for a string literal [s]. *)
Definition eq_str (v : value) (s : string) : bool :=
  match v with
  | Str s' => String.eqb s' s
  | _ => false
  end.

(** Lookup of a key in a [dict]. *)
Fixpoint lookup (key : string) (kvs : list (string * value)) : option value :=
  match kvs with
  | [] => None
  | (k, v) :: rest => if String.eqb k key then Some v else lookup key rest
  end.

(** The exceptions that the modelled code can raise or let through. *)
Inductive openai_class : Type :=
| ClsOpenAIError
| ClsOpenAIRateLimitError
| ClsOpenAIUnauthorizedError.

Record openai_error : Type := mk_openai_error {
  cls : openai_class;
  message : string;
  status_code : option Z
}.

Inductive exn : Type :=
| OpenAI (e : openai_error)
| JSONDecodeError (doc : string)
| KeyError (key : value)
| IndexError
| TypeError
| AttributeError
| RetryError
| OtherError (name : string).

(** [v[key]] for a string [key]. *)
Definition getitem (v : value) (key : string) : exn + value :=
  match v with
  | Obj kvs =>
      match lookup key kvs with
      | Some x => inr x
      | None => inl (KeyError (Str key))
      end
  | _ => inl TypeError
  end.

(** [v[0]] *)
Definition getitem0 (v : value) : exn + value :=
  match v with
  | Arr xs => match xs with x :: _ => inr x | [] => inl IndexError end
  | Obj _ => inl (KeyError (Int 0))
  | Str s => match chars s with c :: _ => inr (Str c) | [] => inl IndexError end
  | _ => inl TypeError
  end.

(** [key in v] for a string [key]. *)
Definition contains (key : string) (v : value) : exn + bool :=
  match v with
  | Obj kvs => inr (match lookup key kvs with Some _ => true | None => false end)
  | Arr xs => inr (existsb (fun x => eq_str x key) xs)
  | Str s => inr (str_contains key s)
  | _ => inl TypeError
  end.

(** The items that [for x in v] visits. *)
Definition iter (v : value) : exn + list value :=
  match v with
  | Arr xs => inr xs
  | Obj kvs => inr (map (fun kv => Str (fst kv)) kvs)
  | Str s => inr (map Str (chars s))
  | _ => inl TypeError
  end.

(** [v.strip()] *)
Definition strip_method (v : value) : exn + string :=
  match v with
  | Str s => inr (strip s)
  | _ => inl AttributeError
  end.

(** [str.join] on the empty separator *)
Fixpoint join (vs : list value) : exn + string :=
  match vs with
  | [] => inr EmptyString
  | Str s :: rest =>
      match join rest with
      | inr r => inr (String.append s r)
      | inl e => inl e
      end
  | _ :: _ => inl TypeError
  end.

End Py.

(* ===================================================================== *)
(** * [generators/_helpers.py]                                            *)
(* ===================================================================== *)

Module Helpers.

(** The tokenizer object: the two methods that the helper calls. *)
Class Tokenizer (token : Type) : Type := {
  encode : string -> list token;
  decode : list token -> string
}.

(** [logger.warning] with its two arguments. *)
Inductive log_record : Type :=
| PromptTruncated (tokens_count max_tokens_limit : Z).

Section WithTokenizer.
Context {token : Type} {tokenizer : Tokenizer token}.

(** [enforce_token_limit]: the returned prompt and the records logged. *)
Definition enforce_token_limit (prompt : string) (max_tokens_limit : Z)
  : string * list log_record :=
  let tokens := encode prompt in
  let tokens_count := Z.of_nat (List.length tokens) in
  if max_tokens_limit <? tokens_count then
    let tokenized_payload := encode prompt in
    (decode (Py.slice_to tokenized_payload max_tokens_limit),
     [PromptTruncated tokens_count max_tokens_limit])
  else
    (prompt, []).

End WithTokenizer.

(** Two byte-level tokenizers used as test inputs: one token per
    character. *)
Definition byte_tokenizer : Tokenizer ascii := {|
  encode := list_ascii_of_string;
  decode := string_of_list_ascii
|}.

(** Decoding in the manner of [bytes.decode(errors="replace")]: a UTF-8 lead
    byte that ends the token list has lost its continuation bytes and is
    replaced by U+FFFD, whose UTF-8 encoding is EF BF BD. *)
Fixpoint replace_dangling_lead (bs : list ascii) : list ascii :=
  match bs with
  | [] => []
  | [b] =>
      if (192 <=? nat_of_ascii b)%nat
      then [ascii_of_nat 239; ascii_of_nat 191; ascii_of_nat 189]
      else [b]
  | b :: rest => b :: replace_dangling_lead rest
  end.

Definition lossy_byte_tokenizer : Tokenizer ascii := {|
  encode := list_ascii_of_string;
  decode := fun ts => string_of_list_ascii (replace_dangling_lead ts)
|}.

End Helpers.

(* ===================================================================== *)
(** * [generators/openai/_helpers.py]                                     *)
(* ===================================================================== *)

Module OpenAI.
Import Py.

(** Modelled from the spec: the module [openai/errors.py] is not among the
    sources.  Its three classes are the classification [GenericProviderError],
    [RateLimited], [Unauthorized], "each carrying status code and raw body
    text": [OpenAIRateLimitError] and [OpenAIUnauthorizedError] derive from
    [OpenAIError] (they are assigned to a variable annotated [OpenAIError]),
    take the message only, and carry the status code of their class. *)
Definition OpenAIError (message : string) (status_code : option Z) : openai_error :=
  mk_openai_error ClsOpenAIError message status_code.

Definition OpenAIRateLimitError (message : string) : openai_error :=
  mk_openai_error ClsOpenAIRateLimitError message (Some 429).

Definition OpenAIUnauthorizedError (message : string) : openai_error :=
  mk_openai_error ClsOpenAIUnauthorizedError message (Some 401).

(** [isinstance(e, OpenAIError)] and [isinstance(e, OpenAIUnauthorizedError)] *)
Definition isinstance_OpenAIError (e : exn) : bool :=
  match e with
  | OpenAI _ => true
  | _ => false
  end.

Definition isinstance_OpenAIUnauthorizedError (e : exn) : bool :=
  match e with
  | OpenAI err =>
      match cls err with
      | ClsOpenAIUnauthorizedError => true
      | _ => false
      end
  | _ => false
  end.

(** [requests.Response]: the attributes read by the helpers, and what
    [sseclient.SSEClient(response).events()] yields for it: the [data] of
    each event in arrival order.  The post is made without [stream=True], so
    the body has been read in full when [requests.post] returns: a failure of
    the connection is an exception of the post, never of the iteration. *)
Module Response.
Record t : Type := mk {
  status_code : Z;
  text : string;
  events : list string
}.
End Response.

(** The two warnings of the module, with their arguments. *)
Inductive log_record : Type :=
| CompletionsTruncated (truncated_completions : Z) (n : value)
| CompletionsFiltered (filtered_completions : Z) (n : value).

(** What a call does to the outside, in order of occurrence. *)
Inductive effect : Type :=
| Post                                   (* requests.post(...) *)
| Sleep (seconds : Z)                    (* the wait between two attempts *)
| SSEOpen                                (* sseclient.SSEClient(response) *)
| SSEClose                               (* client.close() *)
| Callback (token event_data : value) (result : exn + value)
| Warning (record : log_record).

Section Effects.

(** The callback may keep state of its own between calls. *)
Variable CB : Type.

(** The world outside: what the next calls of [requests.post] will return or
    raise, the callback's state, and the effects so far (oldest first). *)
Record world : Type := mk_world {
  pending : list (exn + Response.t);
  cb_state : CB;
  trace : list effect
}.

(** Computations that read and change the world and may raise. *)
Definition M (A : Type) : Type := world -> (exn + A) * world.

Definition ret {A : Type} (a : A) : M A := fun w => (inr a, w).

Definition raise {A : Type} (e : exn) : M A := fun w => (inl e, w).

Definition bind {A B : Type} (m : M A) (k : A -> M B) : M B :=
  fun w =>
    match m w with
    | (inr a, w') => k a w'
    | (inl e, w') => (inl e, w')
    end.

Definition lift {A : Type} (r : exn + A) : M A := fun w => (r, w).

Definition emit (eff : effect) : M unit :=
  fun w => (inr tt, mk_world (pending w) (cb_state w) (trace w ++ [eff])).

(** [try: body finally: handler] *)
Definition try_finally {A : Type} (body : M A) (handler : M unit) : M A :=
  fun w =>
    let '(r, w1) := body w in
    match handler w1 with
    | (inr _, w2) => (r, w2)
    | (inl e, w2) => (inl e, w2)
    end.

End Effects.

Arguments mk_world {CB}.
Arguments pending {CB}.
Arguments cb_state {CB}.
Arguments trace {CB}.
Arguments ret {CB A}.
Arguments raise {CB A}.
Arguments bind {CB A B}.
Arguments lift {CB A}.
Arguments emit {CB}.
Arguments try_finally {CB A}.

Notation "x <- m ;; k" := (bind m (fun x => k))
  (at level 61, m at next level, right associativity).
Notation "m ;;; k" := (bind m (fun _ => k))
  (at level 61, right associativity).

(** ** The retry decorator (the part of [tenacity] that [openai_retry] uses) *)

Section Tenacity.
Context {CB : Type}.

(** A retry condition is called on the outcome of the last attempt; only the
    exception of a failed attempt matters to the conditions used here. *)
Definition retry_base : Type := option exn -> bool.

Definition outcome_exception {A : Type} (outcome : exn + A) : option exn :=
  match outcome with
  | inl e => Some e
  | inr _ => None
  end.

(** [tenacity.retry_if_exception_type(T)]: retry when the attempt failed with
    an instance of [T]. *)
Definition retry_if_exception_type (isinstance_T : exn -> bool) : retry_base :=
  fun outcome =>
    match outcome with
    | Some e => isinstance_T e
    | None => false
    end.

(** [tenacity.retry_if_not_exception_type(T)]: retry when the attempt failed
    with anything that is not an instance of [T]. *)
Definition retry_if_not_exception_type (isinstance_T : exn -> bool) : retry_base :=
  fun outcome =>
    match outcome with
    | Some e => negb (isinstance_T e)
    | None => false
    end.

(** [a & b] on retry conditions ([retry_base.__and__], [retry_all]). *)
Definition retry_all (a b : retry_base) : retry_base :=
  fun outcome => a outcome && b outcome.

(** Python's [a and b] on two objects: [b] when [a] is truthy, else [a].
    A retry condition defines neither [__bool__] nor [__len__], so it is
    truthy. *)
Definition retry_base_truthy (a : retry_base) : bool := true.

Definition py_and (a b : retry_base) : retry_base :=
  if retry_base_truthy a then b else a.

(** [tenacity.stop_after_attempt(n)] *)
Definition stop_after_attempt (max_attempt_number : Z) (attempt_number : Z) : bool :=
  max_attempt_number <=? attempt_number.

(** [tenacity.wait_exponential(multiplier=m)], with the defaults
    [exp_base=2], [min=0], [max=sys.maxsize / 2]: a true division, whose
    result is the float [2.0 ** 62]. *)
Definition MAX_WAIT : Z := 4611686018427387904.

Definition wait_exponential (multiplier : Z) (attempt_number : Z) : Z :=
  Z.max 0 (Z.min (multiplier * 2 ^ (attempt_number - 1)) MAX_WAIT).

(** The loop of [Retrying.__call__] with [reraise=True]: run an attempt; if
    the retry condition rejects its outcome, hand the outcome over (the result,
    or the exception raised again); else, if the stop condition holds, raise
    the last attempt's exception itself ([RetryError] only if that attempt had
    not failed); else sleep and start the next attempt.  [fuel] bounds the
    number of attempts. *)
Fixpoint retrying {A : Type} (retry : retry_base) (stop : Z -> bool) (wait : Z -> Z)
    (fn : M CB A) (fuel : nat) (attempt_number : Z) (w : world CB)
  : option ((exn + A) * world CB) :=
  match fuel with
  | O => None
  | S fuel' =>
      let '(outcome, w1) := fn w in
      if negb (retry (outcome_exception outcome)) then Some (outcome, w1)
      else if stop attempt_number then
        match outcome with
        | inl e => Some (inl e, w1)
        | inr _ => Some (inl RetryError, w1)
        end
      else
        let '(_, w2) := emit (Sleep (wait attempt_number)) w1 in
        retrying retry stop wait fn fuel' (attempt_number + 1) w2
  end.

End Tenacity.

(** ** The module itself *)

Section WithEnvironment.

(** [json.loads] *)
Variable json_loads : string -> exn + value.

Context {CB : Type}.

(** The two settings of the retry policy, read from the environment when the
    module is loaded ([HAYSTACK_REMOTE_API_BACKOFF_SEC],
    [HAYSTACK_REMOTE_API_MAX_RETRIES]). *)
Variable OPENAI_BACKOFF : Z.
Variable OPENAI_MAX_RETRIES : Z.

(** [openai_retry]: the [retry] argument is written with [and]. *)
Definition openai_retry_condition : retry_base :=
  py_and (retry_if_exception_type isinstance_OpenAIError)
         (retry_if_not_exception_type isinstance_OpenAIUnauthorizedError).

Definition openai_retry {A : Type} (fn : M CB A) (w : world CB)
  : option ((exn + A) * world CB) :=
  retrying openai_retry_condition
           (stop_after_attempt OPENAI_MAX_RETRIES)
           (wait_exponential OPENAI_BACKOFF)
           fn (S (Z.to_nat OPENAI_MAX_RETRIES)) 1 w.

(** [requests.post(url, headers=..., data=json.dumps(payload), timeout=...)]:
    the next scripted answer, or a connection error when none is left.  The
    URL, the headers and the timeout do not influence the helpers. *)
Definition requests_post : M CB Response.t :=
  fun w =>
    let tr := trace w ++ [Post] in
    match pending w with
    | [] => (inl (OtherError "ConnectionError"), mk_world [] (cb_state w) tr)
    | r :: rest => (r, mk_world rest (cb_state w) tr)
    end.

(** [raise_for_status] *)
Definition raise_for_status (response : Response.t) : M CB unit :=
  let status_code := Response.status_code response in
  let text := Response.text response in
  if 400 <=? status_code then
    if status_code =? 429 then
      raise (OpenAI (OpenAIRateLimitError
                       (String.append "API rate limit exceeded: " text)))
    else if status_code =? 401 then
      raise (OpenAI (OpenAIUnauthorizedError
                       (String.append "API key is invalid: " text)))
    else
      raise (OpenAI (OpenAIError
                       (String.append "OpenAI returned an error."
                       (String.append newline
                       (String.append "Status code: "
                       (String.append (str_of_int status_code)
                       (String.append newline
                       (String.append "Response body: " text))))))
                       (Some status_code)))
  else ret tt.

(** [sum(1 for ans in choices if ans["finish_reason"] == reason)] *)
Fixpoint count_finish_reason (reason : string) (choices : list value) : exn + Z :=
  match choices with
  | [] => inr 0
  | ans :: rest =>
      match getitem ans "finish_reason" with
      | inl e => inl e
      | inr finish_reason =>
          match count_finish_reason reason rest with
          | inl e => inl e
          | inr n => inr (if eq_str finish_reason reason then 1 + n else n)
          end
      end
  end.

(** [check_truncated_answers] *)
Definition check_truncated_answers (result payload : value) : M CB unit :=
  choices <- lift (getitem result "choices") ;;
  answers <- lift (iter choices) ;;
  truncated_completions <- lift (count_finish_reason "length" answers) ;;
  if 0 <? truncated_completions then
    n <- lift (getitem payload "n") ;;
    emit (Warning (CompletionsTruncated truncated_completions n))
  else ret tt.

(** [check_filtered_answers] *)
Definition check_filtered_answers (result payload : value) : M CB unit :=
  choices <- lift (getitem result "choices") ;;
  answers <- lift (iter choices) ;;
  filtered_completions <- lift (count_finish_reason "content_filter" answers) ;;
  if 0 <? filtered_completions then
    n <- lift (getitem payload "n") ;;
    emit (Warning (CompletionsFiltered filtered_completions n))
  else ret tt.

(** [[choice["message"]["content"].strip() for choice in choices]] *)
Fixpoint stripped_contents (choices : list value) : exn + list string :=
  match choices with
  | [] => inr []
  | choice :: rest =>
      match getitem choice "message" with
      | inl e => inl e
      | inr message =>
          match getitem message "content" with
          | inl e => inl e
          | inr content =>
              match strip_method content with
              | inl e => inl e
              | inr reply =>
                  match stripped_contents rest with
                  | inl e => inl e
                  | inr replies => inr (reply :: replies)
                  end
              end
          end
      end
  end.

(** The body of [query_chat_model]: one attempt. *)
Definition query_chat_model_attempt (payload : value) : M CB (list string) :=
  response <- requests_post ;;
  raise_for_status response ;;;
  json_response <- lift (json_loads (Response.text response)) ;;
  check_truncated_answers json_response payload ;;;
  check_filtered_answers json_response payload ;;;
  choices <- lift (getitem json_response "choices") ;;
  choices <- lift (iter choices) ;;
  lift (stripped_contents choices).

(** [query_chat_model], as decorated with [@openai_retry]. *)
Definition query_chat_model (payload : value) (w : world CB)
  : option ((exn + list string) * world CB) :=
  openai_retry (query_chat_model_attempt payload) w.

(** [callback(token, event_data=...)] *)
Definition call_callback (callback : CB -> value -> value -> (exn + value) * CB)
    (token event_data : value) : M CB value :=
  fun w =>
    let '(r, st) := callback (cb_state w) token event_data in
    (r, mk_world (pending w) st (trace w ++ [Callback token event_data r])).

(** The [for event in client.events()] loop of [query_chat_model_stream];
    [tokens] is the list built so far. *)
Fixpoint consume_events (callback : CB -> value -> value -> (exn + value) * CB)
    (marker : string) (events : list string)
    (tokens : list value) : M CB (list value) :=
  match events with
  | [] => ret tokens
  | data :: rest =>
      if String.eqb data marker then ret tokens   (* break *)
      else
        event_data <- lift (json_loads data) ;;
        choices <- lift (getitem event_data "choices") ;;
        choice <- lift (getitem0 choices) ;;
        delta <- lift (getitem choice "delta") ;;
        has_content <- lift (contains "content" delta) ;;
        token <- (if has_content : bool then lift (getitem delta "content")
                  else ret Null) ;;
        if truthy token then
          returned <- call_callback callback token choices ;;
          consume_events callback marker rest (tokens ++ [returned])
        else
          consume_events callback marker rest tokens
  end.

(** The body of [query_chat_model_stream]: one attempt. *)
Definition query_chat_model_stream_attempt (payload : value)
    (callback : CB -> value -> value -> (exn + value) * CB) (marker : string)
  : M CB (list string) :=
  response <- requests_post ;;
  raise_for_status response ;;;
  emit SSEOpen ;;;
  tokens <- try_finally
              (consume_events callback marker (Response.events response) [])
              (emit SSEClose) ;;
  joined <- lift (join tokens) ;;
  ret [joined].

(** [query_chat_model_stream], as decorated with [@openai_retry]. *)
Definition query_chat_model_stream (payload : value)
    (callback : CB -> value -> value -> (exn + value) * CB) (marker : string)
    (w : world CB) : option ((exn + list string) * world CB) :=
  openai_retry (query_chat_model_stream_attempt payload callback marker) w.

(** The retry condition in the words of the specification: "retried for any
    classified error EXCEPT Unauthorized".  It is compared with
    [openai_retry_condition] below. *)
Definition spec_retry_condition : retry_base :=
  retry_all (retry_if_exception_type isinstance_OpenAIError)
            (retry_if_not_exception_type isinstance_OpenAIUnauthorizedError).

End WithEnvironment.

(** ** Views of well-formed data, used to state properties *)

(** A choice of a completion response that has a finish reason and a message
    whose content is a string. *)
Definition choice_has (choice : value) (finish_reason : value) (content : string) : Prop :=
  exists kvs msg,
    choice = Obj kvs /\
    lookup "finish_reason" kvs = Some finish_reason /\
    lookup "message" kvs = Some (Obj msg) /\
    lookup "content" msg = Some (Str content).

(** How many of the finish reasons equal [reason]. *)
Definition count_reason (reason : string) (finish_reasons : list value) : Z :=
  Z.of_nat (List.length (filter (fun fr => eq_str fr reason) finish_reasons)).

(** The warnings due for the given finish reasons, in the order logged. *)
Definition warnings_for (finish_reasons : list value) (n : value) : list effect :=
  (if 0 <? count_reason "length" finish_reasons
   then [Warning (CompletionsTruncated (count_reason "length" finish_reasons) n)]
   else []) ++
  (if 0 <? count_reason "content_filter" finish_reasons
   then [Warning (CompletionsFiltered (count_reason "content_filter" finish_reasons) n)]
   else []).

(** A streamed event whose first choice has a [delta] object; [content] is
    the delta's ["content"] entry, when it has one. *)
Definition chunk_has (json_loads : string -> exn + value)
    (data : string) (choices : value) (content : option value) : Prop :=
  exists kvs first others ckvs delta,
    json_loads data = inr (Obj kvs) /\
    lookup "choices" kvs = Some choices /\
    choices = Arr (first :: others) /\
    first = Obj ckvs /\
    lookup "delta" ckvs = Some (Obj delta) /\
    lookup "content" delta = content.

(** The callback calls due for a list of such events whose content, when
    present, is a string: one call for each event whose content is present and
    not empty, given as the token and the [event_data] argument. *)
Fixpoint calls_for (chunks : list (value * option string)) : list (value * value) :=
  match chunks with
  | [] => []
  | (choices, Some token) :: rest =>
      if String.eqb token EmptyString then calls_for rest
      else (Str token, choices) :: calls_for rest
  | (_, None) :: rest => calls_for rest
  end.

(** Running the callback over a list of calls, threading its state: the
    effects, the returned values, and the final state. *)
Fixpoint run_callback {CB : Type}
    (callback : CB -> value -> value -> (exn + value) * CB)
    (st : CB) (calls : list (value * value))
  : list effect * list (exn + value) * CB :=
  match calls with
  | [] => ([], [], st)
  | (token, event_data) :: rest =>
      let '(r, st1) := callback st token event_data in
      let '(effs, rs, st2) := run_callback callback st1 rest in
      (Callback token event_data r :: effs, r :: rs, st2)
  end.

(** The strings among returned values, concatenated. *)
Fixpoint concat_returns (rs : list (exn + value)) : string :=
  match rs with
  | [] => EmptyString
  | inr (Str s) :: rest => String.append s (concat_returns rest)
  | _ :: rest => concat_returns rest
  end.

(** Occurrences of [client.close()] and of [SSEClient(...)] in a trace. *)
Definition is_close (eff : effect) : bool :=
  match eff with SSEClose => true | _ => false end.

Definition is_open (eff : effect) : bool :=
  match eff with SSEOpen => true | _ => false end.

Definition is_post (eff : effect) : bool :=
  match eff with Post => true | _ => false end.

Definition count_effects (p : effect -> bool) (tr : list effect) : nat :=
  List.length (filter p tr).

(** Sample data.  The table stands in for [json.loads] on two response
    bodies: one with two choices, of which the second was cut at [max_tokens],
    and any other body, which is not JSON. *)
Definition sample_choice (finish_reason content : string) : value :=
  Obj [("index", Int 0);
       ("message", Obj [("role", Str "assistant"); ("content", Str content)]);
       ("finish_reason", Str finish_reason)].

Definition sample_body : string := "{two choices: a complete one and a cut one}".

Definition sample_result : list (string * value) :=
  [("model", Str "gpt-3.5-turbo");
   ("choices", Arr [sample_choice "stop" " Paris. ";
                    sample_choice "length" "The capital of"])].

Definition sample_json_loads (doc : string) : exn + value :=
  if String.eqb doc sample_body then inr (Obj sample_result)
  else inl (JSONDecodeError doc).

Definition sample_payload : list (string * value) :=
  [("model", Str "gpt-3.5-turbo"); ("n", Int 5); ("stream", Bool false)].

Definition sample_response (status_code : Z) (text : string) : Response.t :=
  Response.mk status_code text [].

(** Sample stream: the table stands in for [json.loads] on four events. *)
Definition sample_chunk (delta : list (string * value)) : value :=
  Obj [("object", Str "chat.completion.chunk");
       ("choices", Arr [Obj [("index", Int 0);
                             ("delta", Obj delta);
                             ("finish_reason", Null)]])].

Definition sample_stream_loads (data : string) : exn + value :=
  if String.eqb data "{delta: {role: assistant}}"
  then inr (sample_chunk [("role", Str "assistant")])
  else if String.eqb data "{delta: {content: Par}}"
  then inr (sample_chunk [("content", Str "Par")])
  else if String.eqb data "{delta: {content: is}}"
  then inr (sample_chunk [("content", Str "is")])
  else if String.eqb data "{delta: {content: }}"
  then inr (sample_chunk [("content", Str EmptyString)])
  else inl (JSONDecodeError data).

Definition sample_events : list string :=
  ["{delta: {role: assistant}}"; "{delta: {content: Par}}";
   "{delta: {content: }}"; "{delta: {content: is}}"].

Definition sample_chunks : list (value * option string) :=
  [(Arr [Obj [("index", Int 0); ("delta", Obj [("role", Str "assistant")]);
              ("finish_reason", Null)]], None);
   (Arr [Obj [("index", Int 0); ("delta", Obj [("content", Str "Par")]);
              ("finish_reason", Null)]], Some "Par");
   (Arr [Obj [("index", Int 0); ("delta", Obj [("content", Str EmptyString)]);
              ("finish_reason", Null)]], Some EmptyString);
   (Arr [Obj [("index", Int 0); ("delta", Obj [("content", Str "is")]);
              ("finish_reason", Null)]], Some "is")].

(** The callback of the end-to-end test: it appends the token to what it has
    seen ([self.responses += token]) and returns the token. *)
Definition sample_callback (responses : string) (token event_data : value)
  : (exn + value) * string :=
  match token with
  | Str t => (inr token, String.append responses t)
  | _ => (inl TypeError, responses)
  end.

Definition is_callback (eff : effect) : bool :=
  match eff with Callback _ _ _ => true | _ => false end.

(** The arguments of the callback calls in a trace, in order. *)
Fixpoint callback_calls (tr : list effect) : list (value * value) :=
  match tr with
  | [] => []
  | Callback token event_data _ :: rest => (token, event_data) :: callback_calls rest
  | _ :: rest => callback_calls rest
  end.

(** The values among the outcomes of callback calls. *)
Fixpoint returned_values (rs : list (exn + value)) : list value :=
  match rs with
  | [] => []
  | inr v :: rest => v :: returned_values rest
  | inl _ :: rest => returned_values rest
  end.

(** The world after the wait between two attempts. *)
Definition slept {CB : Type} (seconds : Z) (w : world CB) : world CB :=
  mk_world (pending w) (cb_state w) (trace w ++ [Sleep seconds]).

(** The effects of [r] failed attempts that each post once and are retried,
    the first of them being attempt number [k]. *)
Fixpoint retries_trace (wait : Z -> Z) (k : Z) (r : nat) : list effect :=
  match r with
  | O => []
  | S r' => Post :: Sleep (wait k) :: retries_trace wait (k + 1) r'
  end.

(** The exception that [raise_for_status] raises for a response, if any. *)
Definition status_error (response : Response.t) : option exn :=
  match fst (raise_for_status (CB:=unit) response (mk_world [] tt [])) with
  | inl e => Some e
  | inr _ => None
  end.

(** ** Further views and the default callback *)

(** The waits in a trace, in order. *)
Fixpoint sleeps (tr : list effect) : list Z :=
  match tr with
  | [] => []
  | Sleep seconds :: rest => seconds :: sleeps rest
  | _ :: rest => sleeps rest
  end.

(** The attempt numbers [k], [k + 1], ..., [k + n - 1]. *)
Fixpoint attempt_numbers (k : Z) (n : nat) : list Z :=
  match n with
  | O => []
  | S n' => k :: attempt_numbers (k + 1) n'
  end.

Definition is_warning (eff : effect) : bool :=
  match eff with Warning _ => true | _ => false end.

Definition is_str (v : value) : bool :=
  match v with Str _ => true | _ => false end.

(** A choice that has a finish reason and a message with a content of any
    kind. *)
Definition choice_has_value (choice finish_reason content : value) : Prop :=
  exists kvs msg,
    choice = Obj kvs /\
    lookup "finish_reason" kvs = Some finish_reason /\
    lookup "message" kvs = Some (Obj msg) /\
    lookup "content" msg = Some content.

(** Outcomes of callback calls that are all values. *)
Definition all_returned (rs : list (exn + value)) : bool :=
  forallb (fun r => match r with inr _ => true | inl _ => false end) rs.

(** Events that cause no call: the content is absent or empty. *)
Definition quiet (chunk : value * option string) : bool :=
  match snd chunk with
  | None => true
  | Some token => String.eqb token EmptyString
  end.

(** A Python function as a call sees it: its parameters in order (none with
    a default value), whether its signature ends in [**kwargs], and its body,
    which runs on the arguments once they are bound to names. *)
Record py_function (S : Type) : Type := mk_py_function {
  parameters : list string;
  var_keyword : bool;
  body : S -> list (string * value) -> (exn + value) * S
}.

Arguments mk_py_function {S}.
Arguments parameters {S}.
Arguments var_keyword {S}.
Arguments body {S}.

(** Positional arguments go to the parameters in order; more arguments than
    parameters is an error.  The result is the bindings and the parameters
    still free. *)
Fixpoint bind_positional (params : list string) (args : list value)
  : option (list (string * value) * list string) :=
  match args with
  | [] => Some ([], params)
  | a :: args' =>
      match params with
      | [] => None
      | p :: ps =>
          match bind_positional ps args' with
          | Some (bound, free) => Some ((p, a) :: bound, free)
          | None => None
          end
      end
  end.

(** A keyword argument goes to the free parameter of its name; a keyword
    that names a parameter already bound is an error; a keyword that names no
    parameter is collected by [**kwargs], and is an error without it. *)
Fixpoint bind_keywords (params free : list string) (has_var_keyword : bool)
    (kwargs : list (string * value))
  : option (list (string * value) * list string) :=
  match kwargs with
  | [] => Some ([], free)
  | (k, v) :: rest =>
      let free' :=
        if existsb (String.eqb k) free then Some (remove string_dec k free)
        else if existsb (String.eqb k) params then None
        else if has_var_keyword then Some free
        else None in
      match free' with
      | None => None
      | Some free' =>
          match bind_keywords params free' has_var_keyword rest with
          | Some (bound, free'') => Some ((k, v) :: bound, free'')
          | None => None
          end
      end
  end.

(** A call of [f] with positional and keyword arguments: a [TypeError],
    raised before the body runs, when the arguments do not fit the signature
    or leave a parameter without a value. *)
Definition py_call {S : Type} (f : py_function S) (st : S)
    (args : list value) (kwargs : list (string * value)) : (exn + value) * S :=
  match bind_positional (parameters f) args with
  | None => (inl TypeError, st)
  | Some (bound, free) =>
      match bind_keywords (parameters f) free (var_keyword f) kwargs with
      | Some (bound', []) => body f st (bound ++ bound')
      | _ => (inl TypeError, st)
      end
  end.

(** The call [callback(token, event_data=event_data["choices"])] that
    [query_chat_model_stream] makes. *)
Definition as_callback {S : Type} (f : py_function S)
  : S -> value -> value -> (exn + value) * S :=
  fun st token event_data => py_call f st [token] [("event_data", event_data)].

(** [def default_streaming_callback(token: str)]: it prints the token and
    returns it.  The state is what has been printed so far. *)
Definition default_streaming_callback : py_function (list value) := {|
  parameters := ["token"];
  var_keyword := false;
  body := fun stdout bound =>
            match lookup "token" bound with
            | Some token =>
                (* print(token, flush=True, end="") ; return token *)
                (inr token, stdout ++ [token])
            | None => (inl (OtherError "UnboundLocalError"), stdout)
            end
|}.

(** The same function with [**kwargs] behind its parameters. *)
Definition with_var_keyword {S : Type} (f : py_function S) : py_function S :=
  mk_py_function (parameters f) true (body f).

(** A callback that raises on its first call and returns the token from
    then on; its state tells whether it has been called. *)
Definition flaky_callback (called : bool) (token event_data : value)
  : (exn + value) * bool :=
  if called then (inr token, true) else (inl (OtherError "ValueError"), true).

End OpenAI.

(* ===================================================================== *)
(** * Theorems                                                            *)
(* ===================================================================== *)

Module PyFacts.
Import Py.

Lemma lstrip_spec (s : string) :
  exists l, s = String.append l (lstrip s) /\
            all_space l = true /\
            starts_with_space (lstrip s) = false.
Proof.
  induction s as [|c s (l & Hl & Hsp & Hst)].
  - exists EmptyString. repeat split.
  - cbn [lstrip]. destruct (isspace c) eqn:Hc.
    + exists (String c l). cbn. rewrite Hc, Hsp, <- Hl. repeat split. exact Hst.
    + exists EmptyString. cbn. rewrite Hc. repeat split.
Qed.

Lemma rstrip_spec (s : string) :
  exists r, s = String.append (rstrip s) r /\
            all_space r = true /\
            ends_with_space (rstrip s) = false.
Proof.
  induction s as [|c s (r & Hr & Hsp & Hend)].
  - exists EmptyString. repeat split.
  - cbn [rstrip]. destruct (rstrip s) as [|d t] eqn:E.
    + cbn in Hr. subst s. destruct (isspace c) eqn:Hc.
      * exists (String c r). cbn. rewrite Hc, Hsp. repeat split.
      * exists r. cbn. rewrite Hc. repeat split. exact Hsp.
    + exists r. split; [cbn; now rewrite Hr|]. split; [exact Hsp | exact Hend].
Qed.

Lemma rstrip_head (c : ascii) (s : string) :
  isspace c = false -> exists t, rstrip (String c s) = String c t.
Proof.
  intros Hc. cbn [rstrip]. destruct (rstrip s); [rewrite Hc|]; eauto.
Qed.

(** [strip] removes exactly a run of whitespace at each end. *)
Lemma strip_spec (s : string) :
  exists l r,
    s = String.append l (String.append (strip s) r) /\
    all_space l = true /\ all_space r = true /\
    starts_with_space (strip s) = false /\
    ends_with_space (strip s) = false.
Proof.
  destruct (lstrip_spec s) as (l & Hl & Hlsp & Hst).
  destruct (rstrip_spec (lstrip s)) as (r & Hr & Hrsp & Hend).
  exists l, r. unfold strip. repeat split; try assumption.
  - now rewrite <- Hr.
  - destruct (lstrip s) as [|c t]; [reflexivity|].
    cbn in Hst. destruct (rstrip_head c t Hst) as (t' & ->). exact Hst.
Qed.

End PyFacts.

Module BatchCreatorFacts.
Import BatchCreator.

Section WithItem.
Context {Item : Type}.
Implicit Types (self : t Item) (item : Item) (items : list Item).

Lemma run_None self item r :
  fst (run self item r) = None ->
  snd (run self item r) = mk (max_batch_size self) (batch self ++ [item]).
Proof.
  unfold run. destruct (negb r && _); simpl; [reflexivity | discriminate].
Qed.

Lemma run_Some self item r b :
  fst (run self item r) = Some b ->
  b = batch self ++ [item] /\
  snd (run self item r) = mk (max_batch_size self) [].
Proof.
  unfold run. destruct (negb r && _); simpl; [discriminate |].
  intros [= <-]. split; reflexivity.
Qed.

Lemma run_release_iff self item r :
  (exists b, fst (run self item r) = Some b) <->
  r = true \/
  match max_batch_size self with
  | None => True
  | Some m => m <= Z.of_nat (List.length (batch self ++ [item]))
  end.
Proof.
  unfold run, below_max; simpl.
  destruct r; simpl.
  - split; [auto | eexists; reflexivity].
  - destruct (max_batch_size self) as [m|]; simpl.
    + destruct (Z.ltb_spec (Z.of_nat (List.length (batch self ++ [item]))) m); simpl.
      * split; [intros [b Hb]; discriminate | intros [?|?]; [discriminate | lia]].
      * split; [auto | eexists; reflexivity].
    + split; [auto | eexists; reflexivity].
Qed.

Lemma run_below (k : Z) (b0 : list Item) item :
  Z.of_nat (List.length b0) + 1 < k ->
  run (mk (Some k) b0) item false = (None, mk (Some k) (b0 ++ [item])).
Proof.
  intros H. unfold run, below_max. cbn [negb andb max_batch_size batch].
  rewrite length_app. cbn [List.length].
  destruct (Z.ltb_spec (Z.of_nat (List.length b0 + 1)) k); [reflexivity | lia].
Qed.

Lemma run_reach (k : Z) (b0 : list Item) item :
  k <= Z.of_nat (List.length b0) + 1 ->
  run (mk (Some k) b0) item false = (Some (b0 ++ [item]), mk (Some k) []).
Proof.
  intros H. unfold run, below_max. cbn [negb andb max_batch_size batch].
  rewrite length_app. cbn [List.length].
  destruct (Z.ltb_spec (Z.of_nat (List.length b0 + 1)) k); [lia | reflexivity].
Qed.

Lemma last_cons_default {A} (l : list A) (a d : A) :
  last (a :: l) d = last l a.
Proof.
  revert a d. induction l as [|b l IH]; intros a d; [reflexivity|].
  change (last (a :: b :: l) d) with (last (b :: l) d).
  now rewrite !IH.
Qed.

(** Without [release_batch], and with a positive [max_batch_size] that the
    buffer has not reached yet, the releases of a run of calls are counted
    by integer division. *)
Lemma run_all_unforced (k : Z) items : forall (b0 : list Item),
  0 < k -> Z.of_nat (List.length b0) < k ->
  let tr := run_all (mk (Some k) b0) (unforced items) in
  Z.of_nat (List.length (released (map fst tr))) =
    (Z.of_nat (List.length b0) + Z.of_nat (List.length items)) / k /\
  Forall (fun b => Z.of_nat (List.length b) = k) (released (map fst tr)) /\
  Forall (fun step =>
            max_batch_size (snd step) = Some k /\
            match fst step with
            | Some _ => batch (snd step) = []
            | None => Z.of_nat (List.length (batch (snd step))) < k
            end) tr /\
  List.concat (released (map fst tr)) ++ batch (last (map snd tr) (mk (Some k) b0))
    = b0 ++ items.
Proof.
  induction items as [|x items IH]; intros b0 Hk Hb0; cbn zeta.
  - simpl. rewrite Z.add_0_r, Z.div_small by lia.
    repeat split; auto. now rewrite app_nil_r.
  - cbn [unforced map run_all]. fold (unforced items).
    destruct (Z_lt_le_dec (Z.of_nat (List.length b0) + 1) k) as [Hlt|Hge].
    + rewrite (run_below _ _ _ Hlt). cbn [fst snd map released].
      rewrite last_cons_default.
      destruct (IH (b0 ++ [x]) Hk) as (Hn & Hall & Hst & Hcat).
      { rewrite length_app. cbn [List.length]. lia. }
      rewrite length_app in Hn. cbn [List.length] in Hn.
      repeat split.
      * rewrite Hn. f_equal. cbn [List.length]. lia.
      * exact Hall.
      * constructor; [|exact Hst]. cbn. split; [reflexivity|].
        rewrite length_app. cbn. lia.
      * rewrite Hcat, <- app_assoc. reflexivity.
    + rewrite (run_reach _ _ _ Hge). cbn [fst snd map released].
      rewrite last_cons_default.
      destruct (IH [] Hk) as (Hn & Hall & Hst & Hcat); [cbn; lia|].
      cbn [List.length] in Hn.
      repeat split.
      * cbn [List.length]. rewrite Nat2Z.inj_succ, Hn.
        replace (Z.of_nat (List.length b0) + Z.of_nat (S (List.length items)))
          with (Z.of_nat (List.length items) + 1 * k) by lia.
        rewrite Z.div_add by lia. cbn. lia.
      * constructor; [|exact Hall]. rewrite length_app. cbn. lia.
      * constructor; [|exact Hst]. cbn. split; reflexivity.
      * cbn [List.concat]. rewrite <- !app_assoc, Hcat. reflexivity.
Qed.

End WithItem.

(** C1, as stated, fails: with [max_batch_size] 0 (the default) or [None]
    and [release_batch] false, [run] returns a batch at once, although the
    stated condition does not hold. *)
Lemma run_zero_or_none_releases_unforced :
  (fst (run (init default_max_batch_size) "a" false) = Some ["a"] /\
   ~ spec_should_release (init default_max_batch_size) "a" false) /\
  (fst (run (init None) "a" false) = Some ["a"] /\
   ~ spec_should_release (init None) "a" false).
Proof.
  split; (split; [reflexivity|]).
  - intros [H | (m & Hm & Hpos & _)]; [discriminate|].
    cbn in Hm. injection Hm as <-. lia.
  - intros [H | (m & Hm & _)]; discriminate.
Qed.

(** C1, amended: after the item is appended, [run] returns a batch if and
    only if [release_batch] is true, or [max_batch_size] is [None], or the
    buffer length is at least [max_batch_size].  A returned batch is the whole
    buffer with the new item last, and it leaves the buffer empty; otherwise
    the buffer keeps the item.  In particular with [max_batch_size] 0 or
    [None] every call returns its batch, whatever [release_batch] is. *)
Theorem run_release_condition :
  forall (Item : Type) (self : t Item) (item : Item) (release_batch : bool),
    ((exists b, fst (run self item release_batch) = Some b) <->
     (release_batch = true \/
      max_batch_size self = None \/
      exists m, max_batch_size self = Some m /\
                m <= Z.of_nat (List.length (batch self ++ [item])))) /\
    (forall b, fst (run self item release_batch) = Some b ->
       b = batch self ++ [item] /\
       snd (run self item release_batch) = mk (max_batch_size self) []) /\
    (fst (run self item release_batch) = None ->
       snd (run self item release_batch)
         = mk (max_batch_size self) (batch self ++ [item])) /\
    (max_batch_size self = None \/ max_batch_size self = Some 0 ->
       run self item release_batch
         = (Some (batch self ++ [item]), mk (max_batch_size self) [])).
Proof.
  intros Item self item r. repeat split.
  - intros H. apply run_release_iff in H. destruct H as [H|H]; [now left|right].
    destruct (max_batch_size self) as [m|]; [right; eauto | now left].
  - intros H. apply run_release_iff.
    destruct H as [H | [H | (m & Hm & Hle)]]; [now left | right; now rewrite H |].
    right. now rewrite Hm.
  - now apply run_Some in H.
  - now apply run_Some in H.
  - apply run_None.
  - intros [H|H]; unfold run, below_max; cbn [max_batch_size batch]; rewrite H.
    + now rewrite andb_false_r.
    + destruct (Z.ltb_spec (Z.of_nat (List.length (batch self ++ [item]))) 0);
        [lia | now rewrite andb_false_r].
Qed.

(** C7: on a fresh [BatchCreator] with [max_batch_size = k > 0], [N] calls
    that never set [release_batch] release exactly [floor(N/k)] batches, each
    of exactly [k] items; after every call that released, the buffer is
    empty, and after every other call it is shorter than [k]; the batches
    followed by the final buffer are the items in call order; no call
    returns a batch while the buffer is shorter than [k]; and the example
    with [k = 2] runs as described. *)
Theorem run_unforced_floor_batches :
  forall (Item : Type) (k : Z) (items : list Item),
    0 < k ->
    let tr := run_all (init (Some k)) (unforced items) in
    Z.of_nat (List.length (released (map fst tr)))
      = Z.of_nat (List.length items) / k /\
    Forall (fun b => Z.of_nat (List.length b) = k) (released (map fst tr)) /\
    Forall (fun step =>
              match fst step with
              | Some _ => batch (snd step) = []
              | None => Z.of_nat (List.length (batch (snd step))) < k
              end) tr /\
    List.concat (released (map fst tr))
      ++ batch (last (map snd tr) (init (Some k))) = items /\
    (forall (self : t Item) (item : Item),
       max_batch_size self = Some k ->
       Z.of_nat (List.length (batch self ++ [item])) < k ->
       fst (run self item false) = None) /\
    run_all (init (Some 2)) [("a", false); ("b", false); ("c", true)]
      = [ (None, mk (Some 2) ["a"]);
          (Some ["a"; "b"], mk (Some 2) []);
          (Some ["c"], mk (Some 2) []) ].
Proof.
  intros Item k items Hk tr.
  destruct (run_all_unforced k items [] Hk) as (Hn & Hall & Hst & Hcat);
    [cbn; lia|].
  fold (init (Item:=Item) (Some k)) in Hn, Hall, Hst, Hcat. fold tr in Hn, Hall, Hst, Hcat.
  repeat split.
  - exact Hn.
  - exact Hall.
  - eapply Forall_impl; [|exact Hst]. intros step [_ H]. exact H.
  - exact Hcat.
  - intros self item Hmax Hlen. unfold run, below_max.
    cbn [max_batch_size batch]. rewrite Hmax.
    destruct (Z.ltb_spec (Z.of_nat (List.length (batch self ++ [item]))) k);
      [reflexivity | lia].
Qed.

Lemma run_unforced_floor_batches_witness :
  0 < 2 /\
  let tr := run_all (init (Some 2)) (unforced [1; 2; 3; 4; 5]) in
  released (map fst tr) = [[1; 2]; [3; 4]] /\
  Z.of_nat (List.length (released (map fst tr))) = 5 / 2.
Proof.
  split; [lia|]. split; [reflexivity|].
  exact (proj1 (run_unforced_floor_batches Z 2 [1; 2; 3; 4; 5] ltac:(lia))).
Defined.

End BatchCreatorFacts.

Module HelpersFacts.
Import Helpers.

Lemma slice_to_nonneg {A : Type} (xs : list A) (k : Z) :
  0 <= k -> Py.slice_to xs k = firstn (Z.to_nat k) xs.
Proof.
  intros H. unfold Py.slice_to.
  destruct (Z.leb_spec 0 k); [reflexivity | lia].
Qed.

(** C6, evaluated where the code departs from it: the prompt is "a"
    followed by the two bytes of U+00E9, three byte tokens, and the limit is
    2.  The code decodes the first two tokens, where the lone lead byte comes
    out as U+FFFD, and returns that text without counting its tokens again:
    it counts 4 tokens, more than the limit it was cut to fit. *)
Theorem enforce_token_limit_exceeds_limit :
  let tokenizer := lossy_byte_tokenizer in
  let prompt :=
    String "a" (String (ascii_of_nat 195) (String (ascii_of_nat 169) EmptyString)) in
  let returned :=
    String "a" (String (ascii_of_nat 239) (String (ascii_of_nat 191)
               (String (ascii_of_nat 189) EmptyString))) in
  enforce_token_limit prompt 2 = (returned, [PromptTruncated 3 2]) /\
  Z.of_nat (List.length (encode returned)) = 4 /\
  2 < Z.of_nat (List.length (encode (fst (enforce_token_limit prompt 2)))).
Proof.
  cbn zeta. split; [vm_compute; reflexivity|]. split; [reflexivity|].
  vm_compute. reflexivity.
Qed.

(** C10: a prompt whose token count is at most [max_tokens_limit] is returned
    unchanged, and nothing is logged. *)
Theorem enforce_token_limit_within_limit :
  forall (token : Type) (tokenizer : Tokenizer token)
         (prompt : string) (max_tokens_limit : Z),
    Z.of_nat (List.length (encode prompt)) <= max_tokens_limit ->
    enforce_token_limit prompt max_tokens_limit = (prompt, []).
Proof.
  intros token tokenizer prompt limit H. unfold enforce_token_limit.
  destruct (Z.ltb_spec limit (Z.of_nat (List.length (encode prompt))));
    [lia | reflexivity].
Qed.

Lemma enforce_token_limit_within_limit_witness :
  Z.of_nat (List.length (encode (Tokenizer:=byte_tokenizer) "hello")) <= 5 /\
  enforce_token_limit (tokenizer:=byte_tokenizer) "hello" 5 = ("hello", []).
Proof.
  assert (H : Z.of_nat (List.length (encode (Tokenizer:=byte_tokenizer) "hello")) <= 5)
    by (cbn; lia).
  split; [exact H|].
  exact (enforce_token_limit_within_limit ascii byte_tokenizer "hello" 5 H).
Defined.

End HelpersFacts.

Module OpenAIFacts.
Import Py OpenAI.

Lemma append_assoc (a b c : string) :
  String.append (String.append a b) c = String.append a (String.append b c).
Proof.
  induction a as [|x a IH]; cbn; [reflexivity | now rewrite IH].
Qed.

(** ** [raise_for_status] *)

(** C3: [raise_for_status] raises if and only if the status code is at least
    400; what it raises is an [OpenAIRateLimitError] for 429, an
    [OpenAIUnauthorizedError] for 401 and a plain [OpenAIError] otherwise, and
    the error carries the response's status code and, at the end of its
    message, the raw body text.  Nothing else happens. *)
Theorem raise_for_status_classifies :
  forall (CB : Type) (response : Response.t) (w : world CB),
    snd (raise_for_status response w) = w /\
    match fst (raise_for_status response w) with
    | inr _ => Response.status_code response < 400
    | inl e =>
        400 <= Response.status_code response /\
        exists err,
          e = OpenAI err /\
          cls err =
            (if Response.status_code response =? 429 then ClsOpenAIRateLimitError
             else if Response.status_code response =? 401 then ClsOpenAIUnauthorizedError
             else ClsOpenAIError) /\
          status_code err = Some (Response.status_code response) /\
          exists prefix,
            message err = String.append prefix (Response.text response)
    end.
Proof.
  intros CB response w. unfold raise_for_status.
  destruct (Z.leb_spec 400 (Response.status_code response)) as [Hge|Hlt].
  - destruct (Z.eqb_spec (Response.status_code response) 429) as [E429|N429];
      [|destruct (Z.eqb_spec (Response.status_code response) 401) as [E401|N401]];
      cbn [fst snd raise]; (split; [reflexivity|]); (split; [exact Hge|]);
      eexists; (split; [reflexivity|]);
      unfold OpenAIRateLimitError, OpenAIUnauthorizedError, OpenAIError;
      cbn [cls message status_code].
    + rewrite E429. repeat split.
      exists "API rate limit exceeded: ". reflexivity.
    + rewrite E401. repeat split.
      exists "API key is invalid: ". reflexivity.
    + repeat split.
      exists (String.append "OpenAI returned an error."
             (String.append newline
             (String.append "Status code: "
             (String.append (str_of_int (Response.status_code response))
             (String.append newline "Response body: "))))).
      rewrite !append_assoc. reflexivity.
  - cbn. split; [reflexivity | exact Hlt].
Qed.

(** ** The retry loop *)

Section Retrying.
Context {CB A : Type}.
Variables (retry : retry_base) (stop : Z -> bool) (wait : Z -> Z).
Variable fn : M CB A.

Lemma retrying_done fuel k w outcome w1 :
  fn w = (outcome, w1) ->
  retry (outcome_exception outcome) = false ->
  retrying retry stop wait fn (S fuel) k w = Some (outcome, w1).
Proof.
  intros Hfn Hr. cbn [retrying]. rewrite Hfn, Hr. reflexivity.
Qed.

Lemma retrying_again fuel k w outcome w1 :
  fn w = (outcome, w1) ->
  retry (outcome_exception outcome) = true ->
  stop k = false ->
  retrying retry stop wait fn (S fuel) k w
    = retrying retry stop wait fn fuel (k + 1) (slept (wait k) w1).
Proof.
  intros Hfn Hr Hs. cbn [retrying]. rewrite Hfn, Hr, Hs. reflexivity.
Qed.

Lemma retrying_exhausted fuel k w e w1 :
  fn w = (inl e, w1) ->
  retry (Some e) = true ->
  stop k = true ->
  retrying retry stop wait fn (S fuel) k w = Some (inl e, w1).
Proof.
  intros Hfn Hr Hs. cbn [retrying]. rewrite Hfn. cbn [outcome_exception].
  rewrite Hr, Hs. reflexivity.
Qed.

End Retrying.

(** With [stop_after_attempt], the loop ends within the fuel that
    [openai_retry] gives it. *)
Lemma retrying_total {CB A : Type} (retry : retry_base) (max_attempts : Z)
    (wait : Z -> Z) (fn : M CB A) :
  forall (fuel : nat) (k : Z) (w : world CB),
    (Z.to_nat (max_attempts - k) < fuel)%nat ->
    exists res,
      retrying retry (stop_after_attempt max_attempts) wait fn fuel k w = Some res.
Proof.
  induction fuel as [|fuel IH]; intros k w Hfuel; [lia|].
  cbn [retrying]. destruct (fn w) as [outcome w1].
  destruct (retry (outcome_exception outcome)); cbn [negb]; [|eauto].
  unfold stop_after_attempt at 1.
  destruct (Z.leb_spec max_attempts k).
  - destruct outcome; eauto.
  - cbn [emit]. apply IH. lia.
Qed.

Lemma openai_retry_condition_unfold (outcome : option exn) :
  openai_retry_condition outcome
    = match outcome with
      | Some e => negb (isinstance_OpenAIUnauthorizedError e)
      | None => false
      end.
Proof. reflexivity. Qed.

(** ** The status check *)

Lemma raise_for_status_world {CB : Type} (response : Response.t) (w : world CB) :
  raise_for_status response w
    = (match status_error response with
       | Some e => inl e
       | None => inr tt
       end, w).
Proof.
  unfold status_error, raise_for_status.
  destruct (400 <=? Response.status_code response); [|reflexivity].
  destruct (Response.status_code response =? 429); [reflexivity|].
  destruct (Response.status_code response =? 401); reflexivity.
Qed.

Lemma status_error_None response :
  Response.status_code response < 400 -> status_error response = None.
Proof.
  intros H. unfold status_error, raise_for_status.
  destruct (Z.leb_spec 400 (Response.status_code response)); [lia | reflexivity].
Qed.

Lemma status_error_retried response :
  400 <= Response.status_code response ->
  Response.status_code response <> 401 ->
  exists e, status_error response = Some e /\
            isinstance_OpenAIError e = true /\
            isinstance_OpenAIUnauthorizedError e = false.
Proof.
  intros Hge Hne. unfold status_error, raise_for_status.
  destruct (Z.leb_spec 400 (Response.status_code response)); [|lia].
  destruct (Response.status_code response =? 429);
    [eexists; repeat split; reflexivity|].
  destruct (Z.eqb_spec (Response.status_code response) 401); [lia|].
  eexists; repeat split; reflexivity.
Qed.

Lemma status_error_unauthorized response :
  Response.status_code response = 401 ->
  status_error response
    = Some (OpenAI (OpenAIUnauthorizedError
                      (String.append "API key is invalid: " (Response.text response)))).
Proof.
  intros H. unfold status_error, raise_for_status. rewrite H. reflexivity.
Qed.


(** ** The retry policy on attempts that fail on an error status *)

Section RetryOnStatus.
Context {CB A : Type}.
Variables OPENAI_BACKOFF OPENAI_MAX_RETRIES : Z.
Variable fn : M CB A.

(** What both attempts do on a response with an error status. *)
Hypothesis fn_error :
  forall (w : world CB) response rest e,
    pending w = inr response :: rest ->
    status_error response = Some e ->
    fn w = (inl e, mk_world rest (cb_state w) (trace w ++ [Post])).

(** Error responses other than 401 are each followed by a wait and a new
    attempt, as long as attempts are left. *)
Lemma retrying_skips_errors (wait : Z -> Z) (failed : list Response.t) :
  forall (k : Z) (fuel : nat) (w : world CB) (tail : list (exn + Response.t)),
    pending w = map inr failed ++ tail ->
    Forall (fun r => 400 <= Response.status_code r /\
                     Response.status_code r <> 401) failed ->
    k + Z.of_nat (List.length failed) <= OPENAI_MAX_RETRIES ->
    retrying openai_retry_condition (stop_after_attempt OPENAI_MAX_RETRIES) wait
             fn (List.length failed + fuel) k w
    = retrying openai_retry_condition (stop_after_attempt OPENAI_MAX_RETRIES) wait
               fn fuel (k + Z.of_nat (List.length failed))
               (mk_world tail (cb_state w)
                         (trace w ++ retries_trace wait k (List.length failed))).
Proof.
  induction failed as [|r failed IH]; intros k fuel w tail Hp Hall Hk.
  - cbn [List.length retries_trace plus]. rewrite Z.add_0_r, app_nil_r.
    destruct w; cbn in *. now subst.
  - inversion Hall as [|? ? [Hge Hne] Hall']; subst.
    destruct (status_error_retried r Hge Hne) as (e & He & _ & Hun).
    cbn [List.length plus map app] in *.
    erewrite retrying_again;
      [| apply (fn_error _ _ _ _ Hp He)
       | rewrite openai_retry_condition_unfold; cbn; now rewrite Hun
       | unfold stop_after_attempt; apply Z.leb_gt; lia ].
    rewrite (IH (k + 1) fuel _ tail); [| reflexivity | exact Hall' | lia].
    cbn [slept pending cb_state trace retries_trace].
    rewrite <- !app_assoc. cbn [app].
    replace (k + 1 + Z.of_nat (List.length failed))
      with (k + Z.of_nat (S (List.length failed))) by lia.
    reflexivity.
Qed.

(** After [r < OPENAI_MAX_RETRIES] error responses other than 401, the next
    attempt is made, and a success of it is the result. *)
Lemma openai_retry_errors_then_success (failed : list Response.t)
    (w w1 : world CB) (tail : list (exn + Response.t)) (a : A) :
  pending w = map inr failed ++ tail ->
  Forall (fun r => 400 <= Response.status_code r /\
                   Response.status_code r <> 401) failed ->
  Z.of_nat (List.length failed) < OPENAI_MAX_RETRIES ->
  fn (mk_world tail (cb_state w)
        (trace w ++ retries_trace (wait_exponential OPENAI_BACKOFF) 1
                                  (List.length failed)))
    = (inr a, w1) ->
  openai_retry OPENAI_BACKOFF OPENAI_MAX_RETRIES fn w = Some (inr a, w1).
Proof.
  intros Hp Hall Hlt Hfn. unfold openai_retry.
  replace (S (Z.to_nat OPENAI_MAX_RETRIES))
    with (List.length failed + S (Z.to_nat OPENAI_MAX_RETRIES - List.length failed))%nat
    by lia.
  rewrite (retrying_skips_errors _ failed 1 _ w tail Hp Hall) by lia.
  now apply retrying_done.
Qed.

(** A 401 response ends the call at once. *)
Lemma openai_retry_unauthorized (w : world CB) response rest :
  pending w = inr response :: rest ->
  Response.status_code response = 401 ->
  openai_retry OPENAI_BACKOFF OPENAI_MAX_RETRIES fn w
    = Some (inl (OpenAI (OpenAIUnauthorizedError
                           (String.append "API key is invalid: "
                                          (Response.text response)))),
            mk_world rest (cb_state w) (trace w ++ [Post])).
Proof.
  intros Hp Hst. unfold openai_retry.
  apply retrying_done; [|reflexivity].
  apply (fn_error w response rest _ Hp).
  now apply status_error_unauthorized.
Qed.

(** When the attempts are used up on error responses other than 401, the
    exception of the last attempt is raised as it is. *)
Lemma openai_retry_exhausted (failed : list Response.t) (last : Response.t)
    (w : world CB) (tail : list (exn + Response.t)) (e : exn) :
  pending w = map inr (failed ++ [last]) ++ tail ->
  Forall (fun r => 400 <= Response.status_code r /\
                   Response.status_code r <> 401) (failed ++ [last]) ->
  Z.of_nat (List.length (failed ++ [last])) = Z.max 1 OPENAI_MAX_RETRIES ->
  status_error last = Some e ->
  openai_retry OPENAI_BACKOFF OPENAI_MAX_RETRIES fn w
    = Some (inl e,
            mk_world tail (cb_state w)
              (trace w ++ retries_trace (wait_exponential OPENAI_BACKOFF) 1
                                        (List.length failed) ++ [Post])).
Proof.
  intros Hp Hall Hlen He. unfold openai_retry.
  rewrite length_app in Hlen. cbn [List.length] in Hlen.
  rewrite map_app, <- app_assoc in Hp. cbn [map app] in Hp.
  apply Forall_app in Hall. destruct Hall as [Hall Hlast].
  inversion Hlast as [|? ? [Hge Hne] _]; subst.
  destruct (status_error_retried last Hge Hne) as (e' & He' & _ & Hun).
  rewrite He in He'. injection He' as <-.
  replace (S (Z.to_nat OPENAI_MAX_RETRIES))
    with (List.length failed + S (Z.to_nat OPENAI_MAX_RETRIES - List.length failed))%nat
    by lia.
  assert (Hcond : openai_retry_condition (Some e) = true)
    by (rewrite openai_retry_condition_unfold; now rewrite Hun).
  destruct failed as [|r failed].
  - cbn [List.length plus map app retries_trace] in *.
    apply retrying_exhausted; [| exact Hcond |].
    + apply (fn_error _ _ _ _ Hp He).
    + unfold stop_after_attempt. apply Z.leb_le. lia.
  - rewrite (retrying_skips_errors _ (r :: failed) 1 _ w _ Hp Hall)
      by (cbn [List.length] in *; lia).
    rewrite app_assoc.
    apply retrying_exhausted; [| exact Hcond |].
    + match goal with
      | |- fn ?W = _ => exact (fn_error W last tail e eq_refl He)
      end.
    + unfold stop_after_attempt. apply Z.leb_le. cbn [List.length] in *. lia.
Qed.

End RetryOnStatus.

(** ** The attempts *)

Section Attempts.
Variable json_loads : string -> exn + value.
Context {CB : Type}.
Variables OPENAI_BACKOFF OPENAI_MAX_RETRIES : Z.

Lemma count_finish_reason_ok (reason : string) choices views :
  Forall2 (fun choice view => choice_has choice (fst view) (snd view)) choices views ->
  count_finish_reason reason choices = inr (count_reason reason (map fst views)).
Proof.
  induction 1 as [|choice view choices views (kvs & msg & -> & Hfr & _) _ IH].
  - reflexivity.
  - cbn [count_finish_reason getitem]. rewrite Hfr, IH.
    unfold count_reason. cbn [map filter].
    destruct (eq_str (fst view) reason); [|reflexivity].
    cbn [List.length]. f_equal. lia.
Qed.

Lemma stripped_contents_ok choices views :
  Forall2 (fun choice view => choice_has choice (fst view) (snd view)) choices views ->
  stripped_contents choices = inr (map (fun view => strip (snd view)) views).
Proof.
  induction 1 as [|choice view choices views (kvs & msg & -> & _ & Hm & Hc) _ IH].
  - reflexivity.
  - cbn [stripped_contents getitem]. rewrite Hm. cbn [getitem]. rewrite Hc.
    cbn [strip_method]. rewrite IH. reflexivity.
Qed.

(** One attempt on a well-formed success response. *)
Lemma query_chat_model_attempt_ok
    (w : world CB) response rest rkvs choices views pkvs n :
  pending w = inr response :: rest ->
  Response.status_code response < 400 ->
  json_loads (Response.text response) = inr (Obj rkvs) ->
  lookup "choices" rkvs = Some (Arr choices) ->
  Forall2 (fun choice view => choice_has choice (fst view) (snd view)) choices views ->
  lookup "n" pkvs = Some n \/ warnings_for (map fst views) n = [] ->
  query_chat_model_attempt json_loads (Obj pkvs) w
    = (inr (map (fun view => strip (snd view)) views),
       mk_world rest (cb_state w)
                (trace w ++ [Post] ++ warnings_for (map fst views) n)).
Proof.
  intros Hp Hst Hjs Hch Hwf Hn.
  unfold query_chat_model_attempt, bind at 1, requests_post. rewrite Hp.
  unfold bind at 1, raise_for_status.
  destruct (Z.leb_spec 400 (Response.status_code response)); [lia|].
  unfold ret at 1, bind at 1, lift at 1. rewrite Hjs.
  unfold bind at 1, check_truncated_answers, check_filtered_answers.
  unfold bind, lift, ret, emit. cbn [getitem iter].
  rewrite Hch. cbn [iter].
  rewrite !(count_finish_reason_ok _ _ _ Hwf), (stripped_contents_ok _ _ Hwf).
  unfold warnings_for in *.
  destruct (0 <? count_reason "length" (map fst views));
    destruct (0 <? count_reason "content_filter" (map fst views));
    try (destruct Hn as [Hn|Hn]; [rewrite Hn | discriminate Hn]);
    cbn [pending cb_state trace]; rewrite <- ?app_assoc; cbn [app];
    try rewrite app_nil_r; reflexivity.
Qed.



(** A successful attempt is not followed by another one. *)
Lemma openai_retry_success {A : Type} (fn : M CB A) (w w1 : world CB) (a : A) :
  fn w = (inr a, w1) ->
  openai_retry OPENAI_BACKOFF OPENAI_MAX_RETRIES fn w = Some (inr a, w1).
Proof.
  intros Hfn. unfold openai_retry. now apply retrying_done.
Qed.

Lemma query_chat_model_ok
    (w : world CB) response rest rkvs choices views pkvs n :
  pending w = inr response :: rest ->
  Response.status_code response < 400 ->
  json_loads (Response.text response) = inr (Obj rkvs) ->
  lookup "choices" rkvs = Some (Arr choices) ->
  Forall2 (fun choice view => choice_has choice (fst view) (snd view)) choices views ->
  lookup "n" pkvs = Some n \/ warnings_for (map fst views) n = [] ->
  query_chat_model json_loads OPENAI_BACKOFF OPENAI_MAX_RETRIES (Obj pkvs) w
    = Some (inr (map (fun view => strip (snd view)) views),
            mk_world rest (cb_state w)
                     (trace w ++ [Post] ++ warnings_for (map fst views) n)).
Proof.
  intros. unfold query_chat_model. apply openai_retry_success.
  eapply query_chat_model_attempt_ok; eassumption.
Qed.

Lemma query_chat_model_attempt_error (payload : value)
    (w : world CB) response rest e :
  pending w = inr response :: rest ->
  status_error response = Some e ->
  query_chat_model_attempt json_loads payload w
    = (inl e, mk_world rest (cb_state w) (trace w ++ [Post])).
Proof.
  intros Hp He. unfold query_chat_model_attempt, bind at 1, requests_post.
  rewrite Hp. unfold bind at 1. rewrite raise_for_status_world, He. reflexivity.
Qed.


Lemma count_post_retries_trace (wait : Z -> Z) (r : nat) :
  forall k, count_effects is_post (retries_trace wait k r) = r.
Proof.
  unfold count_effects. induction r as [|r IH]; intros k; [reflexivity|].
  cbn. now rewrite IH.
Qed.

Lemma count_post_warnings_for finish_reasons n :
  count_effects is_post (warnings_for finish_reasons n) = 0%nat.
Proof.
  unfold count_effects, warnings_for.
  destruct (0 <? _); destruct (0 <? _); reflexivity.
Qed.

(** The parts of the retry policy that hold as specified, on
    [query_chat_model]: [r < OPENAI_MAX_RETRIES] responses with status 429
    followed by a well-formed success give the success after exactly [r + 1]
    posts; a 401 response gives its error after one post; and when the
    attempts are used up, the error of the last response is raised as it
    is. *)
Lemma query_chat_model_retry_policy (pkvs : list (string * value)) (w : world CB) :
  (forall limited ok rest rkvs choices views n,
     pending w = map inr limited ++ inr ok :: rest ->
     Forall (fun r => Response.status_code r = 429) limited ->
     Z.of_nat (List.length limited) < OPENAI_MAX_RETRIES ->
     Response.status_code ok = 200 ->
     json_loads (Response.text ok) = inr (Obj rkvs) ->
     lookup "choices" rkvs = Some (Arr choices) ->
     Forall2 (fun choice view => choice_has choice (fst view) (snd view))
             choices views ->
     lookup "n" pkvs = Some n \/ warnings_for (map fst views) n = [] ->
     exists delta,
       query_chat_model json_loads OPENAI_BACKOFF OPENAI_MAX_RETRIES (Obj pkvs) w
         = Some (inr (map (fun view => strip (snd view)) views),
                 mk_world rest (cb_state w) (trace w ++ delta)) /\
       count_effects is_post delta = S (List.length limited)) /\
  (forall response rest,
     pending w = inr response :: rest ->
     Response.status_code response = 401 ->
     query_chat_model json_loads OPENAI_BACKOFF OPENAI_MAX_RETRIES (Obj pkvs) w
       = Some (inl (OpenAI (OpenAIUnauthorizedError
                              (String.append "API key is invalid: "
                                             (Response.text response)))),
               mk_world rest (cb_state w) (trace w ++ [Post]))) /\
  (forall failed last tail e,
     pending w = map inr (failed ++ [last]) ++ tail ->
     Forall (fun r => 400 <= Response.status_code r /\
                      Response.status_code r <> 401) (failed ++ [last]) ->
     Z.of_nat (List.length (failed ++ [last])) = Z.max 1 OPENAI_MAX_RETRIES ->
     status_error last = Some e ->
     exists delta,
       query_chat_model json_loads OPENAI_BACKOFF OPENAI_MAX_RETRIES (Obj pkvs) w
         = Some (inl e, mk_world tail (cb_state w) (trace w ++ delta)) /\
       count_effects is_post delta = List.length (failed ++ [last])).
Proof.
  repeat split.
  - intros limited ok rest rkvs choices views n Hp Hall Hlt Hok Hjs Hch Hwf Hn.
    exists (retries_trace (wait_exponential OPENAI_BACKOFF) 1 (List.length limited)
            ++ [Post] ++ warnings_for (map fst views) n).
    split.
    + unfold query_chat_model.
      eapply openai_retry_errors_then_success;
        [ apply query_chat_model_attempt_error | exact Hp | | exact Hlt | ].
      * eapply Forall_impl; [|exact Hall]. cbn. intros r Hr. lia.
      * erewrite query_chat_model_attempt_ok;
          [ cbn [cb_state trace]; rewrite <- app_assoc; reflexivity
          | reflexivity | lia | eassumption.. ].
    + unfold count_effects. rewrite !filter_app, !length_app.
      fold (count_effects is_post (retries_trace (wait_exponential OPENAI_BACKOFF) 1
                                                 (List.length limited))).
      fold (count_effects is_post (warnings_for (map fst views) n)).
      rewrite count_post_retries_trace, count_post_warnings_for. cbn. lia.
  - intros response rest Hp Hst. unfold query_chat_model.
    eapply openai_retry_unauthorized; [apply query_chat_model_attempt_error | |];
      assumption.
  - intros failed last tail e Hp Hall Hlen He.
    exists (retries_trace (wait_exponential OPENAI_BACKOFF) 1 (List.length failed)
            ++ [Post]).
    split.
    + unfold query_chat_model.
      eapply openai_retry_exhausted;
        [apply query_chat_model_attempt_error | | | |]; eassumption.
    + unfold count_effects. rewrite filter_app, !length_app.
      fold (count_effects is_post (retries_trace (wait_exponential OPENAI_BACKOFF) 1
                                                 (List.length failed))).
      rewrite count_post_retries_trace. cbn. lia.
Qed.

End Attempts.

Lemma count_effects_app (p : effect -> bool) (a b : list effect) :
  count_effects p (a ++ b) = (count_effects p a + count_effects p b)%nat.
Proof.
  unfold count_effects. now rewrite filter_app, length_app.
Qed.

(** If every attempt closes as many clients as it creates, so does the
    whole retried call. *)
Lemma retrying_balanced {CB A : Type} (retry : retry_base) (stop : Z -> bool)
    (wait : Z -> Z) (fn : M CB A) :
  (forall w, exists delta,
      trace (snd (fn w)) = trace w ++ delta /\
      count_effects is_open delta = count_effects is_close delta) ->
  forall (fuel : nat) (k : Z) (w : world CB) res,
    retrying retry stop wait fn fuel k w = Some res ->
    exists delta,
      trace (snd res) = trace w ++ delta /\
      count_effects is_open delta = count_effects is_close delta.
Proof.
  intros Hfn. induction fuel as [|fuel IH]; intros k w res; [discriminate|].
  cbn [retrying]. destruct (Hfn w) as (delta & Htr & Hbal).
  destruct (fn w) as [outcome w1]. cbn [snd] in Htr.
  destruct (retry (outcome_exception outcome)); cbn [negb].
  - destruct (stop k).
    + destruct outcome; intros [= <-]; exists delta; split; assumption.
    + cbn [emit]. intros Hres. apply IH in Hres.
      destruct Hres as (delta2 & Htr2 & Hbal2). cbn [trace] in Htr2.
      exists (delta ++ [Sleep (wait k)] ++ delta2). split.
      * rewrite Htr2, Htr, <- !app_assoc. reflexivity.
      * rewrite !count_effects_app, Hbal, Hbal2. reflexivity.
  - intros [= <-]. exists delta. split; assumption.
Qed.

(** ** The streaming attempt *)

Lemma callbacks_no_client (calls : list effect) :
  forallb is_callback calls = true ->
  count_effects is_open calls = 0%nat /\ count_effects is_close calls = 0%nat /\
  ~ In SSEOpen calls.
Proof.
  unfold count_effects. induction calls as [|eff calls IH]; cbn; [tauto|].
  intros H. apply andb_prop in H. destruct H as [Heff Hrest].
  destruct (IH Hrest) as (Ho & Hc & Hin).
  destruct eff; try discriminate Heff. cbn. repeat split; try assumption.
  intros [Heq|Hin']; [discriminate | contradiction].
Qed.


Section Streaming.
Variable json_loads : string -> exn + value.
Context {CB : Type}.
Variable callback : CB -> value -> value -> (exn + value) * CB.
Variable marker : string.

Ltac no_effects w :=
  eexists [], (cb_state w), _; rewrite app_nil_r; destruct w; cbn;
  (split; [reflexivity|]); split; [reflexivity | intros; contradiction].

(** The loop only calls the callback; an exception of the callback ends it
    and is its outcome. *)
Lemma consume_events_effects (events : list string) :
  forall (tokens : list value) (w : world CB),
  exists calls st' r,
    consume_events json_loads callback marker events tokens w
      = (r, mk_world (pending w) st' (trace w ++ calls)) /\
    forallb is_callback calls = true /\
    (forall token event_data e,
       In (Callback token event_data (inl e)) calls -> r = inl e).
Proof.
  induction events as [|data events IH]; intros tokens w.
  - cbn. no_effects w.
  - cbn [consume_events].
    destruct (String.eqb data marker); [no_effects w|].
    unfold bind at 1, lift at 1.
    destruct (json_loads data) as [e|event_data]; [no_effects w|].
    unfold bind at 1, lift at 1.
    destruct (getitem event_data "choices") as [e|choices]; [no_effects w|].
    unfold bind at 1, lift at 1.
    destruct (getitem0 choices) as [e|choice]; [no_effects w|].
    unfold bind at 1, lift at 1.
    destruct (getitem choice "delta") as [e|delta]; [no_effects w|].
    unfold bind at 1, lift at 1.
    destruct (contains "content" delta) as [e|has_content]; [no_effects w|].
    unfold bind at 1.
    assert (Htok : exists r, (if has_content then lift (getitem delta "content")
                              else ret Null) w = (r, w))
      by (destruct has_content; eexists; reflexivity).
    destruct Htok as [r ->].
    destruct r as [e|token]; [no_effects w|].
    destruct (truthy token); [|apply IH].
    unfold bind at 1, call_callback.
    destruct (callback (cb_state w) token choices) as [[e|returned] st] eqn:Hcb.
    + exists [Callback token choices (inl e)], st, (inl e). cbn. repeat split.
      intros token' event_data' e' [[= _ _ <-]|[]]. reflexivity.
    + destruct (IH (tokens ++ [returned])
                   (mk_world (pending w) st
                             (trace w ++ [Callback token choices (inr returned)])))
        as (calls & st' & r & Hw & Hall & Hexn).
      exists (Callback token choices (inr returned) :: calls), st', r.
      cbn [pending cb_state trace] in Hw. rewrite <- app_assoc in Hw.
      split; [exact Hw|]. split; [exact Hall|].
      intros token' event_data' e' [Heq|Hin]; [discriminate Heq|].
      eapply Hexn. exact Hin.
Qed.

(** One attempt: either no client is created, and then nothing is closed, or
    the effects are the post, the creation of the client, callback calls, and
    one [close()] at the very end. *)
Lemma stream_attempt_effects (payload : value) (w : world CB) :
  exists delta r st',
    query_chat_model_stream_attempt json_loads payload callback marker w
      = (r, mk_world (tl (pending w)) st' (trace w ++ delta)) /\
    ((delta = [Post] /\ exists e, r = inl e) \/
     (exists calls,
        delta = [Post; SSEOpen] ++ calls ++ [SSEClose] /\
        forallb is_callback calls = true)) /\
    (forall token event_data e,
       In (Callback token event_data (inl e)) delta -> r = inl e).
Proof.
  unfold query_chat_model_stream_attempt, bind at 1, requests_post.
  destruct (pending w) as [|[e|response] rest] eqn:Hp; cbn [tl].
  - exists [Post], (inl (OtherError "ConnectionError")), (cb_state w).
    repeat split; [left; eauto|].
    intros ? ? ? [Heq|[]]. discriminate Heq.
  - exists [Post], (inl e), (cb_state w).
    repeat split; [left; eauto|].
    intros ? ? ? [Heq|[]]. discriminate Heq.
  - unfold bind at 1. rewrite raise_for_status_world.
    destruct (status_error response) as [e|].
    + exists [Post], (inl e), (cb_state w).
      repeat split; [left; eauto|].
      intros ? ? ? [Heq|[]]. discriminate Heq.
    + unfold bind at 1, emit at 1. cbn [pending cb_state trace].
      unfold bind at 1, try_finally.
      destruct (consume_events_effects (Response.events response) []
                  (mk_world rest (cb_state w) ((trace w ++ [Post]) ++ [SSEOpen])))
        as (calls & st' & r & Hloop & Hall & Hexn).
      rewrite Hloop. cbn [emit pending cb_state trace].
      assert (Htr : ((trace w ++ [Post]) ++ [SSEOpen]) ++ calls ++ [SSEClose]
                    = trace w ++ [Post; SSEOpen] ++ calls ++ [SSEClose])
        by (rewrite <- !app_assoc; reflexivity).
      replace ((((trace w ++ [Post]) ++ [SSEOpen]) ++ calls) ++ [SSEClose])
        with (trace w ++ [Post; SSEOpen] ++ calls ++ [SSEClose])
        by (rewrite <- Htr, <- !app_assoc; reflexivity).
      assert (Hin : forall token event_data e,
                 In (Callback token event_data (inl e))
                    ([Post; SSEOpen] ++ calls ++ [SSEClose]) ->
                 r = inl e).
      { intros token event_data e Hin. cbn in Hin.
        destruct Hin as [Heq|[Heq|Hin]]; try discriminate Heq.
        apply in_app_or in Hin. destruct Hin as [Hin|[Heq|[]]];
          [eapply Hexn; exact Hin | discriminate Heq]. }
      destruct r as [e|tokens].
      * exists ([Post; SSEOpen] ++ calls ++ [SSEClose]), (inl e), st'.
        split; [reflexivity|]. split; [right; eauto|].
        intros token event_data e' Hin'.
        specialize (Hin _ _ _ Hin'). now injection Hin as ->.
      * unfold bind, lift, ret. destruct (join tokens) as [e|joined].
        -- exists ([Post; SSEOpen] ++ calls ++ [SSEClose]), (inl e), st'.
           split; [reflexivity|]. split; [right; eauto|].
           intros token event_data e' Hin'. discriminate (Hin _ _ _ Hin').
        -- exists ([Post; SSEOpen] ++ calls ++ [SSEClose]), (inr [joined]), st'.
           split; [reflexivity|]. split; [right; eauto|].
           intros token event_data e' Hin'. discriminate (Hin _ _ _ Hin').
Qed.

End Streaming.

(** ** Token events up to the marker *)

Lemma run_callback_calls {CB : Type}
    (callback : CB -> value -> value -> (exn + value) * CB)
    (calls : list (value * value)) :
  forall st,
    callback_calls (fst (fst (run_callback callback st calls))) = calls /\
    List.length (fst (fst (run_callback callback st calls))) = List.length calls.
Proof.
  induction calls as [|[token event_data] calls IH]; intros st; [now split|].
  cbn [run_callback]. destruct (callback st token event_data) as [r st1].
  destruct (IH st1) as [Hc Hl].
  destruct (run_callback callback st1 calls) as [[effs rs] st2].
  cbn in *. now rewrite Hc, Hl.
Qed.

Section TokenEvents.
Variable json_loads : string -> exn + value.
Context {CB : Type}.
Variable callback : CB -> value -> value -> (exn + value) * CB.
Variable marker : string.

(** The callback returns a string whenever it is called on a string. *)
Hypothesis callback_returns_str :
  forall st token event_data,
    exists s, fst (callback st (Str token) event_data) = inr (Str s).

Lemma calls_for_tokens (chunks : list (value * option string)) :
  Forall (fun call => exists token, fst call = Str token) (calls_for chunks).
Proof.
  induction chunks as [|[choices [token|]] chunks IH]; cbn; auto.
  destruct (String.eqb token EmptyString); auto. constructor; cbn; eauto.
Qed.

Lemma run_callback_join (calls : list (value * value)) :
  Forall (fun call => exists token, fst call = Str token) calls ->
  forall st,
    join (returned_values (snd (fst (run_callback callback st calls))))
      = inr (concat_returns (snd (fst (run_callback callback st calls)))).
Proof.
  induction 1 as [|[token event_data] calls [t Ht] _ IH]; intros st;
    [reflexivity|].
  cbn in Ht. subst token. cbn [run_callback].
  destruct (callback_returns_str st t event_data) as [s Hs].
  destruct (callback st (Str t) event_data) as [r st1]. cbn in Hs. subst r.
  specialize (IH st1).
  destruct (run_callback callback st1 calls) as [[effs rs] st2].
  cbn in *. now rewrite IH.
Qed.

(** The loop on events that are all chunks, up to the marker. *)
Lemma consume_events_chunks (events : list string)
    (chunks : list (value * option string)) (after : list string) :
  Forall2 (fun data chunk =>
             data <> marker /\
             chunk_has json_loads data (fst chunk) (option_map Str (snd chunk)))
          events chunks ->
  forall (tokens : list value) (w : world CB),
    consume_events json_loads callback marker (events ++ marker :: after)
                   tokens w
    = (inr (tokens ++ returned_values
                        (snd (fst (run_callback callback (cb_state w)
                                                (calls_for chunks))))),
       mk_world (pending w)
                (snd (run_callback callback (cb_state w) (calls_for chunks)))
                (trace w ++ fst (fst (run_callback callback (cb_state w)
                                                   (calls_for chunks))))).
Proof.
  induction 1 as [|data chunk events chunks Hhead _ IH]; intros tokens w.
  - cbn. rewrite String.eqb_refl, !app_nil_r. now destruct w.
  - destruct chunk as [choices content]. cbn [fst snd] in Hhead.
    destruct Hhead
      as [Hne (kvs & first & others & ckvs & delta & Hjs & Hch & Hc1 & Hc2 & Hd & Hc)].
    subst choices first.
    cbn [app consume_events fst snd] in *.
    apply String.eqb_neq in Hne. rewrite Hne.
    unfold bind at 1, lift at 1. rewrite Hjs.
    unfold bind at 1, lift at 1. cbn [getitem]. rewrite Hch.
    unfold bind at 1, lift at 1. cbn [getitem0].
    unfold bind at 1, lift at 1. cbn [getitem]. rewrite Hd.
    unfold bind at 1, lift at 1. cbn [contains].
    unfold bind at 1. cbn [getitem calls_for]. rewrite Hc.
    destruct content as [token|]; cbn [option_map].
    + unfold lift at 1. cbn [truthy]. destruct (String.eqb token EmptyString); cbn [negb].
      * apply IH.
      * unfold bind at 1, call_callback. cbn [run_callback].
        destruct (callback_returns_str (cb_state w) token
                    (Arr (Obj ckvs :: others))) as [s Hs].
        destruct (callback (cb_state w) (Str token) (Arr (Obj ckvs :: others)))
          as [r st1].
        cbn in Hs. subst r. rewrite IH. cbn [pending cb_state trace].
        destruct (run_callback callback st1 (calls_for chunks)) as [[effs rs] st2].
        cbn [fst snd returned_values]. rewrite <- !app_assoc. reflexivity.
    + unfold ret at 1. cbn [truthy]. apply IH.
Qed.

(** The streaming attempt on such a response. *)
Lemma query_chat_model_stream_attempt_chunks (payload : value) (w : world CB)
    response rest events chunks after :
  pending w = inr response :: rest ->
  Response.status_code response < 400 ->
  Response.events response = events ++ marker :: after ->
  Forall2 (fun data chunk =>
             data <> marker /\
             chunk_has json_loads data (fst chunk) (option_map Str (snd chunk)))
          events chunks ->
  query_chat_model_stream_attempt json_loads payload callback marker w
  = (inr [concat_returns
            (snd (fst (run_callback callback (cb_state w) (calls_for chunks))))],
     mk_world rest
              (snd (run_callback callback (cb_state w) (calls_for chunks)))
              (trace w ++ [Post; SSEOpen]
                 ++ fst (fst (run_callback callback (cb_state w) (calls_for chunks)))
                 ++ [SSEClose])).
Proof.
  intros Hp Hst Hev Hchunks.
  unfold query_chat_model_stream_attempt, bind at 1, requests_post. rewrite Hp.
  unfold bind at 1. rewrite raise_for_status_world, (status_error_None _ Hst).
  unfold bind at 1, emit at 1. cbn [pending cb_state trace].
  unfold bind at 1, try_finally. rewrite Hev.
  rewrite (consume_events_chunks _ _ _ Hchunks). cbn [emit pending cb_state trace app].
  unfold bind, lift, ret. rewrite run_callback_join by apply calls_for_tokens.
  rewrite <- !app_assoc. reflexivity.
Qed.

End TokenEvents.

(** C4: on a success response whose events, up to the termination marker,
    are chunks with a [delta] whose content is absent or a string, and with a
    callback that returns strings, [query_chat_model_stream] calls the callback
    once for each chunk with a non-empty content, in arrival order, with that
    content as the token, and returns the one-element list holding the
    concatenation of the values the callback returned.  With [N] chunks that
    all carry a non-empty content there are exactly [N] calls; chunks without
    content or with an empty content cause no call. *)
Theorem stream_tokens_in_order :
  forall (json_loads : string -> exn + value) (CB : Type)
         (OPENAI_BACKOFF OPENAI_MAX_RETRIES : Z) (payload : value)
         (callback : CB -> value -> value -> (exn + value) * CB)
         (marker : string) (w : world CB)
         response rest events chunks after,
    pending w = inr response :: rest ->
    Response.status_code response < 400 ->
    Response.events response = events ++ marker :: after ->
    Forall2 (fun data chunk =>
               data <> marker /\
               chunk_has json_loads data (fst chunk) (option_map Str (snd chunk)))
            events chunks ->
    (forall st token event_data,
        exists s, fst (callback st (Str token) event_data) = inr (Str s)) ->
    let calls := calls_for chunks in
    let run := run_callback callback (cb_state w) calls in
    query_chat_model_stream json_loads OPENAI_BACKOFF OPENAI_MAX_RETRIES
                            payload callback marker w
      = Some (inr [concat_returns (snd (fst run))],
              mk_world rest (snd run)
                       (trace w ++ [Post; SSEOpen] ++ fst (fst run) ++ [SSEClose])) /\
    callback_calls (fst (fst run)) = calls /\
    List.length (fst (fst run)) = List.length calls /\
    (Forall (fun chunk => exists token, snd chunk = Some token /\ token <> EmptyString)
            chunks ->
       List.length calls = List.length events /\
       calls = map (fun chunk =>
                      (match snd chunk with Some token => Str token | None => Null end,
                       fst chunk)) chunks) /\
    (Forall (fun chunk => snd chunk = None \/ snd chunk = Some EmptyString) chunks ->
       calls = []).
Proof.
  intros json_loads CB B R payload callback marker w response rest events chunks
         after Hp Hst Hev Hchunks Hcb calls run.
  split; [|split; [|split; [|split]]].
  - unfold query_chat_model_stream. apply openai_retry_success.
    eapply query_chat_model_stream_attempt_chunks; eassumption.
  - apply run_callback_calls.
  - apply run_callback_calls.
  - intros Hall. rewrite (Forall2_length Hchunks). subst calls. clear - Hall.
    induction Hall as [|[choices content] chunks (token & Hc & Hne) _ [IHl IHm]];
      [now split|].
    cbn in Hc. subst content. cbn [calls_for].
    apply String.eqb_neq in Hne. rewrite Hne. cbn. now rewrite IHl, IHm.
  - intros Hall. subst calls. clear - Hall.
    induction Hall as [|[choices content] chunks Hc _ IH]; [reflexivity|].
    cbn in Hc. cbn [calls_for]. now destruct Hc as [->| ->].
Qed.

Lemma sample_chunks_have :
  Forall2 (fun data chunk =>
             data <> "[DONE]" /\
             chunk_has sample_stream_loads data (fst chunk)
                       (option_map Str (snd chunk)))
          sample_events sample_chunks.
Proof.
  repeat constructor; try discriminate;
    unfold chunk_has; cbn [fst snd option_map];
    do 5 eexists; (split; [reflexivity|]); (split; [reflexivity|]);
    (split; [reflexivity|]); (split; [reflexivity|]); split; reflexivity.
Qed.

Lemma stream_tokens_in_order_witness :
  query_chat_model_stream sample_stream_loads 10 5 (Obj sample_payload)
      sample_callback "[DONE]"
      (mk_world [inr (Response.mk 200 EmptyString (sample_events ++ ["[DONE]"; "{late}"]))]
                EmptyString [])
  = Some (inr ["Paris"],
          mk_world [] "Paris"
            [Post; SSEOpen;
             Callback (Str "Par")
                      (Arr [Obj [("index", Int 0);
                                 ("delta", Obj [("content", Str "Par")]);
                                 ("finish_reason", Null)]])
                      (inr (Str "Par"));
             Callback (Str "is")
                      (Arr [Obj [("index", Int 0);
                                 ("delta", Obj [("content", Str "is")]);
                                 ("finish_reason", Null)]])
                      (inr (Str "is"));
             SSEClose]).
Proof.
  exact (proj1 (stream_tokens_in_order sample_stream_loads string 10 5
                  (Obj sample_payload) sample_callback "[DONE]"
                  (mk_world [inr (Response.mk 200 EmptyString
                                    (sample_events ++ ["[DONE]"; "{late}"]))]
                            EmptyString [])
                  (Response.mk 200 EmptyString (sample_events ++ ["[DONE]"; "{late}"]))
                  [] sample_events sample_chunks ["{late}"]
                  eq_refl ltac:(cbn; lia) eq_refl sample_chunks_have
                  (fun st token event_data => ex_intro _ token eq_refl))).
Defined.

(** X17: whatever the events, the callback and the parser do, one attempt
    of [query_chat_model_stream] that has created the SSE client closes it
    exactly once, as its last effect, and closes nothing when no client was
    created; an exception raised by the callback is the outcome of that
    attempt, unchanged.  Over the retried call as a whole, as many clients are
    closed as were created. *)
Theorem stream_client_closed_once :
  forall (json_loads : string -> exn + value) (CB : Type)
         (payload : value)
         (callback : CB -> value -> value -> (exn + value) * CB)
         (marker : string) (w : world CB),
    (exists delta r w',
       query_chat_model_stream_attempt json_loads payload callback marker w
         = (r, w') /\
       trace w' = trace w ++ delta /\
       (In SSEOpen delta ->
          count_effects is_open delta = 1%nat /\
          count_effects is_close delta = 1%nat /\
          exists calls,
            delta = [Post; SSEOpen] ++ calls ++ [SSEClose] /\
            forallb is_callback calls = true) /\
       (~ In SSEOpen delta -> count_effects is_close delta = 0%nat) /\
       (forall token event_data e,
          In (Callback token event_data (inl e)) delta -> r = inl e)) /\
    (forall OPENAI_BACKOFF OPENAI_MAX_RETRIES : Z,
       exists delta r w',
         query_chat_model_stream json_loads OPENAI_BACKOFF OPENAI_MAX_RETRIES
                                 payload callback marker w
           = Some (r, w') /\
         trace w' = trace w ++ delta /\
         count_effects is_close delta = count_effects is_open delta).
Proof.
  intros json_loads CB payload callback marker w.
  assert (Hattempt : forall w0 : world CB, exists delta r w',
             query_chat_model_stream_attempt json_loads payload callback marker w0
               = (r, w') /\
             trace w' = trace w0 ++ delta /\
             (In SSEOpen delta ->
                count_effects is_open delta = 1%nat /\
                count_effects is_close delta = 1%nat /\
                exists calls,
                  delta = [Post; SSEOpen] ++ calls ++ [SSEClose] /\
                  forallb is_callback calls = true) /\
             (~ In SSEOpen delta -> count_effects is_close delta = 0%nat) /\
             (forall token event_data e,
                In (Callback token event_data (inl e)) delta -> r = inl e)).
  { intros w0.
    destruct (stream_attempt_effects json_loads callback marker payload w0)
      as (delta & r & st' & Hrun & Hshape & Hexn).
    exists delta, r, (mk_world (tl (pending w0)) st' (trace w0 ++ delta)).
    split; [exact Hrun|]. split; [reflexivity|].
    destruct Hshape as [[-> _] | (calls & -> & Hall)].
    - split; [intros [Heq|[]]; discriminate Heq|]. split; [reflexivity | exact Hexn].
    - destruct (callbacks_no_client calls Hall) as (Ho & Hc & _).
      split; [|split; [|exact Hexn]].
      + intros _.
        change ([Post; SSEOpen] ++ calls ++ [SSEClose])
          with ([Post] ++ [SSEOpen] ++ calls ++ [SSEClose]).
        rewrite !count_effects_app, Ho, Hc. repeat split.
        exists calls. split; [reflexivity | exact Hall].
      + intros Hno. exfalso. apply Hno. cbn. auto. }
  split; [apply Hattempt|].
  intros B R.
  destruct (retrying_total openai_retry_condition R (wait_exponential B)
              (query_chat_model_stream_attempt json_loads payload callback marker)
              (S (Z.to_nat R)) 1 w ltac:(lia)) as ([r w'] & Hres).
  assert (Hbalanced : forall w0 : world CB, exists delta,
             trace (snd (query_chat_model_stream_attempt
                           json_loads payload callback marker w0))
               = trace w0 ++ delta /\
             count_effects is_open delta = count_effects is_close delta).
  { intros w0.
    destruct (stream_attempt_effects json_loads callback marker payload w0)
      as (delta & r0 & st' & Hrun & Hshape & _).
    exists delta. rewrite Hrun. split; [reflexivity|].
    destruct Hshape as [[-> _] | (calls & -> & Hall)]; [reflexivity|].
    destruct (callbacks_no_client calls Hall) as (Ho & Hc & _).
    change ([Post; SSEOpen] ++ calls ++ [SSEClose])
      with ([Post] ++ [SSEOpen] ++ calls ++ [SSEClose]).
    rewrite !count_effects_app, Ho, Hc. reflexivity. }
  destruct (retrying_balanced _ _ _ _ Hbalanced _ _ _ _ Hres)
    as (delta & Htr & Hbal).
  exists delta, r, w'. repeat split; [exact Hres | exact Htr | now symmetry].
Qed.

(** C5, evaluated where the code departs from it: a callback that raises
    on its first call ends the first attempt with its exception, the client
    closed; but the retry condition of [openai_retry] accepts that exception
    (see C2), so [query_chat_model_stream] waits, posts again, and returns the
    reply of the second attempt: the callback's exception never reaches the
    caller.  Each of the two clients is closed once. *)
Theorem stream_callback_exception_retried :
  let response :=
    Response.mk 200 EmptyString
      ["{delta: {content: Par}}"; "{delta: {content: is}}"; "[DONE]"] in
  let w := mk_world [inr response; inr response] false [] in
  fst (query_chat_model_stream_attempt sample_stream_loads (Obj sample_payload)
                                       flaky_callback "[DONE]" w)
    = inl (OtherError "ValueError") /\
  openai_retry_condition (Some (OtherError "ValueError")) = true /\
  spec_retry_condition (Some (OtherError "ValueError")) = false /\
  exists w',
    query_chat_model_stream sample_stream_loads 10 5 (Obj sample_payload)
                            flaky_callback "[DONE]" w
      = Some (inr ["Paris"], w') /\
    pending w' = [] /\
    sleeps (trace w') = [10] /\
    count_effects is_post (trace w') = 2%nat /\
    count_effects is_open (trace w') = 2%nat /\
    count_effects is_close (trace w') = 2%nat.
Proof.
  cbn zeta. split; [vm_compute; reflexivity|].
  split; [reflexivity|]. split; [reflexivity|].
  eexists. split; [vm_compute; reflexivity|].
  repeat split.
Qed.

(** C2, evaluated where the code departs from it: the retry condition of
    [openai_retry] accepts every exception that is not an
    [OpenAIUnauthorizedError], classified or not, while the condition of the
    specification accepts classified errors only.  So a success-status response
    whose body is not JSON is followed by a wait and a second post, whose
    result is returned. *)
Theorem openai_retry_retries_unclassified_errors :
  (forall e, openai_retry_condition (Some e)
             = negb (isinstance_OpenAIUnauthorizedError e)) /\
  openai_retry_condition (Some (JSONDecodeError "<html>")) = true /\
  spec_retry_condition (Some (JSONDecodeError "<html>")) = false /\
  query_chat_model sample_json_loads 10 5 (Obj sample_payload)
      (mk_world [inr (sample_response 200 "<html>");
                 inr (sample_response 200 sample_body)] tt [])
    = Some (inr ["Paris."; "The capital of"],
            mk_world [] tt
              [Post; Sleep 10; Post; Warning (CompletionsTruncated 1 (Int 5))]).
Proof.
  repeat split; vm_compute; reflexivity.
Qed.


Lemma sample_choices_have :
  Forall2 (fun choice view => choice_has choice (fst view) (snd view))
          [sample_choice "stop" " Paris. "; sample_choice "length" "The capital of"]
          [(Str "stop", " Paris. "); (Str "length", "The capital of")].
Proof.
  repeat constructor; cbn [fst snd]; unfold choice_has, sample_choice;
    do 2 eexists; (split; [reflexivity|]); repeat split.
Qed.


(** C9: on a well-formed success response, [query_chat_model] returns exactly
    one string for every element of ["choices"], in the same order: the
    message content of that choice with the whitespace at both ends removed
    ([strip] takes off a run of whitespace at each end and nothing else), so
    a content with whitespace around it is not returned as it is. *)
Theorem query_chat_model_replies :
  forall (json_loads : string -> exn + value) (CB : Type)
         (OPENAI_BACKOFF OPENAI_MAX_RETRIES : Z)
         (w : world CB) response rest rkvs choices views pkvs n,
    pending w = inr response :: rest ->
    Response.status_code response < 400 ->
    json_loads (Response.text response) = inr (Obj rkvs) ->
    lookup "choices" rkvs = Some (Arr choices) ->
    Forall2 (fun choice view => choice_has choice (fst view) (snd view))
            choices views ->
    lookup "n" pkvs = Some n \/ warnings_for (map fst views) n = [] ->
    (exists w',
       query_chat_model json_loads OPENAI_BACKOFF OPENAI_MAX_RETRIES (Obj pkvs) w
         = Some (inr (map (fun view => strip (snd view)) views), w')) /\
    List.length (map (fun view => strip (snd view)) views) = List.length choices /\
    (forall content,
       exists l r,
         content = String.append l (String.append (strip content) r) /\
         all_space l = true /\ all_space r = true /\
         starts_with_space (strip content) = false /\
         ends_with_space (strip content) = false) /\
    strip " Paris. " = "Paris.".
Proof.
  intros json_loads CB B R w response rest rkvs choices views pkvs n
         Hp Hst Hjs Hch Hwf Hn.
  split; [eexists; eapply query_chat_model_ok; eauto|].
  split; [rewrite length_map; symmetry; eapply Forall2_length; eassumption|].
  split; [exact PyFacts.strip_spec | reflexivity].
Qed.

Lemma query_chat_model_replies_witness :
  exists w',
    query_chat_model sample_json_loads 10 5 (Obj sample_payload)
                     (mk_world [inr (sample_response 200 sample_body)] tt [])
      = Some (inr ["Paris."; "The capital of"], w').
Proof.
  exact (proj1 (query_chat_model_replies sample_json_loads unit 10 5
              (mk_world [inr (sample_response 200 sample_body)] tt [])
              (sample_response 200 sample_body) [] sample_result
              [sample_choice "stop" " Paris. "; sample_choice "length" "The capital of"]
              [(Str "stop", " Paris. "); (Str "length", "The capital of")]
              sample_payload (Int 5)
              eq_refl ltac:(cbn; lia) eq_refl eq_refl sample_choices_have
              (or_introl eq_refl))).
Defined.

End OpenAIFacts.

(* ===================================================================== *)
(** * Further properties of [BatchCreator.run]                            *)
(* ===================================================================== *)

Module BatchCreatorInvariants.
Import BatchCreator.

(** The two outcomes of one call. *)
Lemma run_cases {Item : Type} (self : t Item) (item : Item) (r : bool) :
  run self item r = (None, mk (max_batch_size self) (batch self ++ [item])) \/
  run self item r = (Some (batch self ++ [item]), mk (max_batch_size self) []).
Proof.
  unfold run. destruct (negb r && _); auto.
Qed.

(** X1: Whatever the flags and whatever [max_batch_size] is, no item is lost,
    repeated or reordered: the released batches, in order, followed by what
    is left in the buffer, are the items that were in the buffer at the start
    followed by the items of the calls. *)
Theorem run_all_conserves_items :
  forall (Item : Type) (calls : list (Item * bool)) (self : t Item),
    let tr := run_all self calls in
    List.concat (released (map fst tr)) ++ batch (last (map snd tr) self)
      = batch self ++ map fst calls.
Proof.
  intros Item calls. induction calls as [|[item r] calls IH]; intros self; cbn zeta.
  - cbn. now rewrite app_nil_r.
  - cbn [run_all map]. rewrite BatchCreatorFacts.last_cons_default.
    destruct (run_cases self item r) as [E|E]; rewrite E; cbn [fst snd released].
    + rewrite IH. cbn [batch]. now rewrite <- app_assoc.
    + cbn [List.concat]. rewrite <- app_assoc, IH. cbn [batch app].
      now rewrite <- app_assoc.
Qed.

(** X2: With a positive [max_batch_size = k] and a buffer that starts shorter
    than [k], every call, forced or not, leaves the buffer shorter than [k]
    and keeps [max_batch_size]; every released batch holds at least one and at
    most [k] items. *)
Theorem run_all_keeps_buffer_below_max :
  forall (Item : Type) (k : Z) (calls : list (Item * bool)) (self : t Item),
    0 < k ->
    max_batch_size self = Some k ->
    Z.of_nat (List.length (batch self)) < k ->
    Forall (fun step =>
              max_batch_size (snd step) = Some k /\
              Z.of_nat (List.length (batch (snd step))) < k /\
              match fst step with
              | Some b => (0 < List.length b)%nat /\ Z.of_nat (List.length b) <= k
              | None => True
              end) (run_all self calls).
Proof.
  intros Item k calls. induction calls as [|[item r] calls IH];
    intros self Hk Hmax Hlen; [constructor|].
  cbn [run_all].
  assert (Hstep : max_batch_size (snd (run self item r)) = Some k /\
                  Z.of_nat (List.length (batch (snd (run self item r)))) < k /\
                  match fst (run self item r) with
                  | Some b => (0 < List.length b)%nat /\ Z.of_nat (List.length b) <= k
                  | None => True
                  end).
  { unfold run, below_max. cbn [max_batch_size batch]. rewrite Hmax.
    rewrite length_app. cbn [List.length].
    destruct (Z.ltb_spec (Z.of_nat (List.length (batch self) + 1)) k);
      destruct r; cbn [negb andb fst snd max_batch_size batch List.length];
      rewrite ?length_app; cbn [List.length]; repeat split; lia. }
  constructor; [exact Hstep|].
  apply IH; [exact Hk | apply Hstep | apply Hstep].
Qed.

Lemma run_all_keeps_buffer_below_max_witness :
  Forall (fun step =>
            max_batch_size (snd step) = Some 2 /\
            Z.of_nat (List.length (batch (snd step))) < 2 /\
            match fst step with
            | Some b => (0 < List.length b)%nat /\ Z.of_nat (List.length b) <= 2
            | None => True
            end)
         (run_all (init (Some 2)) [(1, false); (2, true); (3, false); (4, false)]).
Proof.
  apply (run_all_keeps_buffer_below_max Z 2
           [(1, false); (2, true); (3, false); (4, false)] (init (Some 2)));
    [lia | reflexivity | cbn; lia].
Defined.

(** X3: When [max_batch_size] is [None] or at most 1 (0, the default, and the
    negative numbers included) and the buffer starts empty, nothing is ever
    accumulated: every call returns the batch that holds just its item. *)
Theorem run_all_passes_items_through :
  forall (Item : Type) (calls : list (Item * bool)) (self : t Item),
    match max_batch_size self with
    | None => True
    | Some m => m <= 1
    end ->
    batch self = [] ->
    map fst (run_all self calls) = map (fun call => Some [fst call]) calls /\
    batch (last (map snd (run_all self calls)) self) = [].
Proof.
  intros Item calls. induction calls as [|[item r] calls IH];
    intros self Hmax Hb; [now split|].
  cbn [run_all map]. rewrite BatchCreatorFacts.last_cons_default.
  assert (E : run self item r = (Some [item], mk (max_batch_size self) [])).
  { unfold run, below_max. cbn [max_batch_size batch]. rewrite Hb. cbn [app List.length].
    destruct (max_batch_size self) as [m|].
    - destruct (Z.ltb_spec (Z.of_nat 1) m); [lia|]. now rewrite andb_false_r.
    - now rewrite andb_false_r. }
  rewrite E. cbn [fst snd].
  destruct (IH (mk (max_batch_size self) []) Hmax eq_refl) as [Ho Hl].
  now rewrite Ho, Hl.
Qed.

Lemma run_all_passes_items_through_witness :
  map fst (run_all (init default_max_batch_size) [("a", false); ("b", false)])
    = [Some ["a"]; Some ["b"]].
Proof.
  exact (proj1 (run_all_passes_items_through string [("a", false); ("b", false)]
                  (init default_max_batch_size) ltac:(cbn; lia) eq_refl)).
Defined.

End BatchCreatorInvariants.

(* ===================================================================== *)
(** * Further properties of [enforce_token_limit]                         *)
(* ===================================================================== *)

Module HelpersInvariants.
Import Helpers.

Lemma slice_to_firstn {A : Type} (xs : list A) (k : Z) :
  exists n, Py.slice_to xs k = firstn n xs.
Proof.
  unfold Py.slice_to. destruct (0 <=? k); eauto.
Qed.

Lemma string_of_list_ascii_app (a b : list ascii) :
  string_of_list_ascii (a ++ b)
    = String.append (string_of_list_ascii a) (string_of_list_ascii b).
Proof.
  induction a as [|c a IH]; cbn; [reflexivity | now rewrite IH].
Qed.

(** X4: For a limit that is not negative and a tokenizer that encodes the
    truncated text back to the tokens it was decoded from, enforcing the
    limit a second time changes nothing and logs nothing. *)
Theorem enforce_token_limit_idempotent :
  forall (token : Type) (tokenizer : Tokenizer token)
         (prompt : string) (max_tokens_limit : Z),
    0 <= max_tokens_limit ->
    encode (decode (firstn (Z.to_nat max_tokens_limit) (encode prompt)))
      = firstn (Z.to_nat max_tokens_limit) (encode prompt) ->
    enforce_token_limit (fst (enforce_token_limit prompt max_tokens_limit))
                        max_tokens_limit
      = (fst (enforce_token_limit prompt max_tokens_limit), []).
Proof.
  intros token tokenizer prompt limit Hpos Hround.
  unfold enforce_token_limit at 2 3.
  destruct (Z.ltb_spec limit (Z.of_nat (List.length (encode prompt)))) as [Hlt|Hge];
    cbn [fst].
  - rewrite HelpersFacts.slice_to_nonneg by exact Hpos.
    unfold enforce_token_limit. rewrite Hround, length_firstn.
    destruct (Z.ltb_spec limit
                (Z.of_nat (Nat.min (Z.to_nat limit) (List.length (encode prompt)))));
      [lia | reflexivity].
  - unfold enforce_token_limit.
    destruct (Z.ltb_spec limit (Z.of_nat (List.length (encode prompt))));
      [lia | reflexivity].
Qed.

Lemma enforce_token_limit_idempotent_witness :
  enforce_token_limit (tokenizer:=byte_tokenizer)
      (fst (enforce_token_limit (tokenizer:=byte_tokenizer) "hello world" 5)) 5
    = ("hello", []).
Proof.
  exact (enforce_token_limit_idempotent ascii byte_tokenizer "hello world" 5
           ltac:(lia) eq_refl).
Defined.

(** X5: For a tokenizer whose decoding undoes its encoding of the prompt and
    maps a concatenation of token lists to the concatenation of their texts,
    the returned prompt is a prefix of the given one, whatever the limit. *)
Theorem enforce_token_limit_returns_prefix :
  forall (token : Type) (tokenizer : Tokenizer token)
         (prompt : string) (max_tokens_limit : Z),
    decode (encode prompt) = prompt ->
    (forall a b, decode (a ++ b) = String.append (decode a) (decode b)) ->
    exists cut,
      prompt = String.append (fst (enforce_token_limit prompt max_tokens_limit)) cut.
Proof.
  intros token tokenizer prompt limit Hdec Happ. unfold enforce_token_limit.
  destruct (limit <? Z.of_nat (List.length (encode prompt))); cbn [fst].
  - destruct (slice_to_firstn (encode prompt) limit) as [n ->].
    exists (decode (skipn n (encode prompt))).
    now rewrite <- Happ, firstn_skipn.
  - exists EmptyString. clear. induction prompt as [|c p IH]; cbn; [reflexivity|].
    now rewrite <- IH.
Qed.

Lemma enforce_token_limit_returns_prefix_witness :
  exists cut,
    "hello world"
      = String.append
          (fst (enforce_token_limit (tokenizer:=byte_tokenizer) "hello world" 5)) cut.
Proof.
  apply (enforce_token_limit_returns_prefix ascii byte_tokenizer "hello world" 5).
  - reflexivity.
  - exact string_of_list_ascii_app.
Defined.

(** X6: A negative limit does not empty the prompt: the slice [tokens[:limit]]
    then counts from the end, so the last [-limit] tokens are dropped (all of
    them when there are no more than that), and the warning is logged whatever
    the prompt is. *)
Theorem enforce_token_limit_negative_limit :
  forall (token : Type) (tokenizer : Tokenizer token)
         (prompt : string) (max_tokens_limit : Z),
    max_tokens_limit < 0 ->
    enforce_token_limit prompt max_tokens_limit
      = (decode (firstn (List.length (encode prompt) - Z.to_nat (- max_tokens_limit))
                        (encode prompt)),
         [PromptTruncated (Z.of_nat (List.length (encode prompt))) max_tokens_limit]).
Proof.
  intros token tokenizer prompt limit Hneg. unfold enforce_token_limit, Py.slice_to.
  destruct (Z.ltb_spec limit (Z.of_nat (List.length (encode prompt)))); [|lia].
  destruct (Z.leb_spec 0 limit); [lia|].
  do 3 f_equal. lia.
Qed.

Lemma enforce_token_limit_negative_limit_witness :
  enforce_token_limit (tokenizer:=byte_tokenizer) "hello" (-2)
    = ("hel", [PromptTruncated 5 (-2)]).
Proof.
  exact (enforce_token_limit_negative_limit ascii byte_tokenizer "hello" (-2)
           ltac:(lia)).
Defined.

End HelpersInvariants.

(* ===================================================================== *)
(** * Further properties of the OpenAI helpers                            *)
(* ===================================================================== *)

Module OpenAIInvariants.
Import Py OpenAI.

(** ** The retried call as a whole *)

(** A retry condition that only accepts failures never turns a result into
    a [RetryError]: what the loop hands over is what its last attempt gave,
    with the world as that attempt left it. *)
Lemma retrying_outcome_of_attempt {CB A : Type} (retry : retry_base)
    (stop : Z -> bool) (wait : Z -> Z) (fn : M CB A) :
  retry None = false ->
  forall (fuel : nat) (k : Z) (w : world CB) r w',
    retrying retry stop wait fn fuel k w = Some (r, w') ->
    exists w0, fn w0 = (r, w').
Proof.
  intros Hnone. induction fuel as [|fuel IH]; intros k w r w'; [discriminate|].
  cbn [retrying]. destruct (fn w) as [outcome w1] eqn:Hfn.
  destruct (retry (outcome_exception outcome)) eqn:Hr; cbn [negb].
  - destruct (stop k).
    + destruct outcome as [e|a].
      * intros [= <- <-]. eauto.
      * cbn in Hr. congruence.
    + cbn [emit]. apply IH.
  - intros [= <- <-]. eauto.
Qed.



Lemma sleeps_app (a b : list effect) : sleeps (a ++ b) = sleeps a ++ sleeps b.
Proof.
  induction a as [|eff a IH]; [reflexivity|].
  destruct eff; cbn; now rewrite IH.
Qed.

(** If every attempt posts once and does not sleep, the loop posts once per
    attempt, sleeps between two attempts for the time the wait function gives
    for the earlier one, and makes a further attempt only while the attempt
    number is below the maximum. *)
Lemma retrying_schedule {CB A : Type} (retry : retry_base) (max_attempts : Z)
    (wait : Z -> Z) (fn : M CB A) :
  (forall w, exists delta,
      trace (snd (fn w)) = trace w ++ delta /\
      count_effects is_post delta = 1%nat /\ sleeps delta = []) ->
  forall (fuel : nat) (k : Z) (w : world CB) res,
    retrying retry (stop_after_attempt max_attempts) wait fn fuel k w = Some res ->
    exists delta retries,
      trace (snd res) = trace w ++ delta /\
      count_effects is_post delta = S retries /\
      sleeps delta = map wait (attempt_numbers k retries) /\
      (retries = 0%nat \/ k + Z.of_nat retries <= max_attempts).
Proof.
  intros Hfn. induction fuel as [|fuel IH]; intros k w res; [discriminate|].
  cbn [retrying]. destruct (Hfn w) as (delta & Htr & Hpost & Hsleep).
  destruct (fn w) as [outcome w1]. cbn [snd] in Htr.
  assert (Hlast : exists delta0 retries,
             trace w1 = trace w ++ delta0 /\
             count_effects is_post delta0 = S retries /\
             sleeps delta0 = map wait (attempt_numbers k retries) /\
             (retries = 0%nat \/ k + Z.of_nat retries <= max_attempts))
    by (exists delta, 0%nat; repeat split; auto).
  destruct (retry (outcome_exception outcome)); cbn [negb].
  - unfold stop_after_attempt at 1. destruct (Z.leb_spec max_attempts k).
    + destruct outcome; intros [= <-]; exact Hlast.
    + cbn [emit]. intros Hres. apply IH in Hres.
      destruct Hres as (delta2 & retries & Htr2 & Hpost2 & Hsleep2 & Hbound).
      cbn [trace] in Htr2.
      exists (delta ++ [Sleep (wait k)] ++ delta2), (S retries).
      split; [rewrite Htr2, Htr, <- !app_assoc; reflexivity|].
      split; [rewrite !OpenAIFacts.count_effects_app, Hpost, Hpost2; reflexivity|].
      split; [rewrite !sleeps_app, Hsleep, Hsleep2; reflexivity|].
      right. destruct Hbound as [-> | Hb]; lia.
  - intros [= <-]. exact Hlast.
Qed.

(** ** What one attempt does to the world *)

Lemma only_warnings (ws : list effect) :
  forallb is_warning ws = true ->
  count_effects is_post ws = 0%nat /\ sleeps ws = [].
Proof.
  unfold count_effects. induction ws as [|eff ws IH]; cbn; [tauto|].
  intros H. apply andb_prop in H. destruct H as [Heff Hrest].
  destruct (IH Hrest) as [Hp Hs].
  destruct eff; try discriminate Heff. cbn. now split.
Qed.

Lemma only_callbacks (calls : list effect) :
  forallb is_callback calls = true ->
  count_effects is_post calls = 0%nat /\ sleeps calls = [].
Proof.
  unfold count_effects. induction calls as [|eff calls IH]; cbn; [tauto|].
  intros H. apply andb_prop in H. destruct H as [Heff Hrest].
  destruct (IH Hrest) as [Hp Hs].
  destruct eff; try discriminate Heff. cbn. now split.
Qed.

Ltac unchanged w :=
  eexists _, []; rewrite app_nil_r; destruct w; cbn;
  split; reflexivity.

(** The two checks only log warnings. *)
Lemma check_truncated_answers_effects {CB : Type} (result payload : value)
    (w : world CB) :
  exists r ws,
    check_truncated_answers result payload w
      = (r, mk_world (pending w) (cb_state w) (trace w ++ ws)) /\
    forallb is_warning ws = true.
Proof.
  unfold check_truncated_answers, bind, lift, ret, emit.
  destruct (getitem result "choices") as [e|choices]; [unchanged w|].
  destruct (iter choices) as [e|answers]; [unchanged w|].
  destruct (count_finish_reason "length" answers) as [e|n]; [unchanged w|].
  destruct (0 <? n); [|unchanged w].
  destruct (getitem payload "n") as [e|m]; [unchanged w|].
  eexists _, [_]. split; reflexivity.
Qed.

Lemma check_filtered_answers_effects {CB : Type} (result payload : value)
    (w : world CB) :
  exists r ws,
    check_filtered_answers result payload w
      = (r, mk_world (pending w) (cb_state w) (trace w ++ ws)) /\
    forallb is_warning ws = true.
Proof.
  unfold check_filtered_answers, bind, lift, ret, emit.
  destruct (getitem result "choices") as [e|choices]; [unchanged w|].
  destruct (iter choices) as [e|answers]; [unchanged w|].
  destruct (count_finish_reason "content_filter" answers) as [e|n]; [unchanged w|].
  destruct (0 <? n); [|unchanged w].
  destruct (getitem payload "n") as [e|m]; [unchanged w|].
  eexists _, [_]. split; reflexivity.
Qed.

(** One attempt of [query_chat_model] takes one answer off the provider's
    script with one post, leaves the callback's state alone, and beyond the
    post only logs warnings. *)
Lemma query_chat_model_attempt_effects {CB : Type}
    (json_loads : string -> exn + value) (payload : value) (w : world CB) :
  exists r ws,
    query_chat_model_attempt json_loads payload w
      = (r, mk_world (tl (pending w)) (cb_state w) (trace w ++ Post :: ws)) /\
    forallb is_warning ws = true.
Proof.
  unfold query_chat_model_attempt, bind at 1, requests_post.
  destruct (pending w) as [|[e|response] rest]; cbn [tl];
    [eexists _, []; split; reflexivity | eexists _, []; split; reflexivity |].
  unfold bind at 1. rewrite OpenAIFacts.raise_for_status_world.
  destruct (status_error response) as [e|];
    [eexists _, []; split; reflexivity|].
  unfold bind at 1, lift at 1.
  destruct (json_loads (Response.text response)) as [e|json_response];
    [eexists _, []; split; reflexivity|].
  unfold bind at 1.
  destruct (check_truncated_answers_effects json_response payload
              (mk_world rest (cb_state w) (trace w ++ [Post])))
    as (r1 & ws1 & -> & H1).
  cbn [pending cb_state trace].
  destruct r1 as [e|[]];
    [exists (inl e), ws1; rewrite <- app_assoc; split; [reflexivity | exact H1]|].
  unfold bind at 1.
  destruct (check_filtered_answers_effects json_response payload
              (mk_world rest (cb_state w) ((trace w ++ [Post]) ++ ws1)))
    as (r2 & ws2 & -> & H2).
  cbn [pending cb_state trace].
  assert (Hws : forallb is_warning (ws1 ++ ws2) = true)
    by (rewrite forallb_app, H1, H2; reflexivity).
  assert (Htr : ((trace w ++ [Post]) ++ ws1) ++ ws2 = trace w ++ Post :: ws1 ++ ws2)
    by (rewrite <- !app_assoc; reflexivity).
  rewrite Htr.
  destruct r2 as [e|[]]; [exists (inl e), (ws1 ++ ws2); split; [reflexivity | exact Hws]|].
  unfold bind, lift.
  destruct (getitem json_response "choices") as [e|choices];
    [exists (inl e), (ws1 ++ ws2); split; [reflexivity | exact Hws]|].
  destruct (iter choices) as [e|items];
    [exists (inl e), (ws1 ++ ws2); split; [reflexivity | exact Hws]|].
  eexists _, (ws1 ++ ws2). split; [reflexivity | exact Hws].
Qed.

(** X11: However the provider answers, [query_chat_model] and
    [query_chat_model_stream] end, after at least one post and at most
    [max(1, OPENAI_MAX_RETRIES)] posts, and the waits between the posts are
    those of [wait_exponential(multiplier=OPENAI_BACKOFF)] for the attempts 1,
    2, ... in turn. *)
Theorem openai_retry_bounded_schedule :
  forall (json_loads : string -> exn + value) (CB : Type)
         (OPENAI_BACKOFF OPENAI_MAX_RETRIES : Z) (payload : value)
         (callback : CB -> value -> value -> (exn + value) * CB)
         (marker : string) (w : world CB),
    (exists r w' delta retries,
       query_chat_model json_loads OPENAI_BACKOFF OPENAI_MAX_RETRIES payload w
         = Some (r, w') /\
       trace w' = trace w ++ delta /\
       count_effects is_post delta = S retries /\
       Z.of_nat (S retries) <= Z.max 1 OPENAI_MAX_RETRIES /\
       sleeps delta
         = map (wait_exponential OPENAI_BACKOFF) (attempt_numbers 1 retries)) /\
    (exists r w' delta retries,
       query_chat_model_stream json_loads OPENAI_BACKOFF OPENAI_MAX_RETRIES
                               payload callback marker w
         = Some (r, w') /\
       trace w' = trace w ++ delta /\
       count_effects is_post delta = S retries /\
       Z.of_nat (S retries) <= Z.max 1 OPENAI_MAX_RETRIES /\
       sleeps delta
         = map (wait_exponential OPENAI_BACKOFF) (attempt_numbers 1 retries)).
Proof.
  intros json_loads CB B R payload callback marker w.
  assert (Hgen : forall (A : Type) (fn : M CB A),
             (forall w0, exists delta,
                 trace (snd (fn w0)) = trace w0 ++ delta /\
                 count_effects is_post delta = 1%nat /\ sleeps delta = []) ->
             exists r w' delta retries,
               openai_retry B R fn w = Some (r, w') /\
               trace w' = trace w ++ delta /\
               count_effects is_post delta = S retries /\
               Z.of_nat (S retries) <= Z.max 1 R /\
               sleeps delta = map (wait_exponential B) (attempt_numbers 1 retries)).
  { intros A fn Hfn. unfold openai_retry.
    destruct (OpenAIFacts.retrying_total openai_retry_condition R
                (wait_exponential B) fn (S (Z.to_nat R)) 1 w ltac:(lia))
      as ([r w'] & Hres).
    destruct (retrying_schedule _ _ _ _ Hfn _ _ _ _ Hres)
      as (delta & retries & Htr & Hpost & Hsleep & Hbound).
    exists r, w', delta, retries. repeat split; try assumption.
    destruct Hbound as [-> | Hb]; lia. }
  split; apply Hgen; intros w0.
  - destruct (query_chat_model_attempt_effects json_loads payload w0)
      as (r & ws & -> & Hws).
    destruct (only_warnings ws Hws) as [Hp Hs].
    exists (Post :: ws). cbn [snd trace]. split; [reflexivity|].
    unfold count_effects in *. cbn. now rewrite Hp, Hs.
  - destruct (OpenAIFacts.stream_attempt_effects json_loads callback marker payload w0)
      as (delta & r & st' & -> & Hshape & _).
    exists delta. cbn [snd trace]. split; [reflexivity|].
    destruct Hshape as [[-> _] | (calls & -> & Hall)]; [now split|].
    destruct (only_callbacks calls Hall) as [Hp Hs].
    change ([Post; SSEOpen] ++ calls ++ [SSEClose])
      with ([Post; SSEOpen] ++ calls ++ [SSEClose]).
    rewrite !OpenAIFacts.count_effects_app, !sleeps_app, Hp, Hs. now split.
Qed.

(** ** A 401 after other errors *)



(** ** The shape of the streaming result *)

Lemma bind_inr {CB A B : Type} (m : M CB A) (k : A -> M CB B)
    (w w' : world CB) (b : B) :
  bind m k w = (inr b, w') ->
  exists a w1, m w = (inr a, w1) /\ k a w1 = (inr b, w').
Proof.
  unfold bind. destruct (m w) as [[e|a] w1]; [discriminate | eauto].
Qed.

Lemma query_chat_model_stream_attempt_singleton {CB : Type}
    (json_loads : string -> exn + value) (payload : value)
    (callback : CB -> value -> value -> (exn + value) * CB) (marker : string)
    (w w' : world CB) (replies : list string) :
  query_chat_model_stream_attempt json_loads payload callback marker w
    = (inr replies, w') ->
  exists joined, replies = [joined].
Proof.
  unfold query_chat_model_stream_attempt. intros H.
  apply bind_inr in H. destruct H as (response & w1 & _ & H).
  apply bind_inr in H. destruct H as (? & w2 & _ & H).
  apply bind_inr in H. destruct H as (? & w3 & _ & H).
  apply bind_inr in H. destruct H as (tokens & w4 & _ & H).
  apply bind_inr in H. destruct H as (joined & w5 & _ & H).
  injection H as <- _. eauto.
Qed.

(** X13: Whenever [query_chat_model_stream] returns, it returns a list of exactly
    one string, whatever the stream held: never an empty list and never one
    reply per event. *)
Theorem query_chat_model_stream_returns_one_reply :
  forall (json_loads : string -> exn + value) (CB : Type)
         (OPENAI_BACKOFF OPENAI_MAX_RETRIES : Z) (payload : value)
         (callback : CB -> value -> value -> (exn + value) * CB)
         (marker : string) (w w' : world CB) (replies : list string),
    query_chat_model_stream json_loads OPENAI_BACKOFF OPENAI_MAX_RETRIES
                            payload callback marker w
      = Some (inr replies, w') ->
    exists joined, replies = [joined].
Proof.
  intros json_loads CB B R payload callback marker w w' replies H.
  unfold query_chat_model_stream, openai_retry in H.
  apply retrying_outcome_of_attempt in H; [|reflexivity].
  destruct H as [w0 H].
  eapply query_chat_model_stream_attempt_singleton. exact H.
Qed.

Lemma query_chat_model_stream_returns_one_reply_witness :
  exists joined, ["Paris"] = [joined].
Proof.
  apply (query_chat_model_stream_returns_one_reply sample_stream_loads string 10 5
           (Obj sample_payload) sample_callback "[DONE]"
           (mk_world [inr (Response.mk 200 EmptyString
                             (sample_events ++ ["[DONE]"; "{late}"]))]
                     EmptyString [])
           (mk_world [] "Paris"
              [Post; SSEOpen;
               Callback (Str "Par")
                        (Arr [Obj [("index", Int 0);
                                   ("delta", Obj [("content", Str "Par")]);
                                   ("finish_reason", Null)]])
                        (inr (Str "Par"));
               Callback (Str "is")
                        (Arr [Obj [("index", Int 0);
                                   ("delta", Obj [("content", Str "is")]);
                                   ("finish_reason", Null)]])
                        (inr (Str "is"));
               SSEClose])
           ["Paris"]).
  vm_compute. reflexivity.
Defined.

(** ** Responses that are not what [query_chat_model] expects *)

Lemma count_finish_reason_value (reason : string) choices views :
  Forall2 (fun choice view => choice_has_value choice (fst view) (snd view))
          choices views ->
  count_finish_reason reason choices = inr (count_reason reason (map fst views)).
Proof.
  induction 1 as [|choice view choices views (kvs & msg & -> & Hfr & _) _ IH].
  - reflexivity.
  - cbn [count_finish_reason getitem]. rewrite Hfr, IH.
    unfold count_reason. cbn [map filter].
    destruct (eq_str (fst view) reason); [|reflexivity].
    cbn [List.length]. f_equal. lia.
Qed.

Lemma count_reason_nonneg (reason : string) (finish_reasons : list value) :
  0 <= count_reason reason finish_reasons.
Proof. unfold count_reason. lia. Qed.

(** X7: The two checks read [payload["n"]] only to fill in a warning.  On a
    well-formed result without a truncated (filtered) choice the check returns
    without touching anything, whatever the payload is, even if it is no
    dict; with such a choice and a payload dict without the key ["n"], the
    check raises [KeyError] and logs nothing. *)
Theorem checks_read_n_only_to_warn :
  forall (CB : Type) (w : world CB) rkvs choices views,
    lookup "choices" rkvs = Some (Arr choices) ->
    Forall2 (fun choice view => choice_has_value choice (fst view) (snd view))
            choices views ->
    let truncated_completions := count_reason "length" (map fst views) in
    let filtered_completions := count_reason "content_filter" (map fst views) in
    (truncated_completions = 0 ->
       forall payload, check_truncated_answers (Obj rkvs) payload w = (inr tt, w)) /\
    (0 < truncated_completions ->
       forall pkvs, lookup "n" pkvs = None ->
         check_truncated_answers (Obj rkvs) (Obj pkvs) w
           = (inl (KeyError (Str "n")), w)) /\
    (filtered_completions = 0 ->
       forall payload, check_filtered_answers (Obj rkvs) payload w = (inr tt, w)) /\
    (0 < filtered_completions ->
       forall pkvs, lookup "n" pkvs = None ->
         check_filtered_answers (Obj rkvs) (Obj pkvs) w
           = (inl (KeyError (Str "n")), w)).
Proof.
  intros CB w rkvs choices views Hch Hwf. cbn zeta.
  unfold check_truncated_answers, check_filtered_answers, bind, lift, ret.
  cbn [getitem]. rewrite Hch. cbn [iter].
  rewrite !(count_finish_reason_value _ _ _ Hwf).
  repeat split.
  - intros ->. reflexivity.
  - intros Hpos pkvs Hn. apply Z.ltb_lt in Hpos. rewrite Hpos, Hn. reflexivity.
  - intros ->. reflexivity.
  - intros Hpos pkvs Hn. apply Z.ltb_lt in Hpos. rewrite Hpos, Hn. reflexivity.
Qed.

Lemma sample_choices_have_values :
  Forall2 (fun choice view => choice_has_value choice (fst view) (snd view))
          [sample_choice "stop" " Paris. "; sample_choice "length" "The capital of"]
          [(Str "stop", Str " Paris. "); (Str "length", Str "The capital of")].
Proof.
  repeat constructor; cbn [fst snd]; unfold choice_has_value, sample_choice;
    do 2 eexists; (split; [reflexivity|]); repeat split.
Qed.

Lemma checks_read_n_only_to_warn_witness :
  let w := mk_world (CB:=unit) [] tt [] in
  check_truncated_answers (Obj sample_result) (Obj [("model", Str "gpt-4")]) w
    = (inl (KeyError (Str "n")), w) /\
  check_filtered_answers (Obj sample_result) Null w = (inr tt, w).
Proof.
  cbn zeta.
  destruct (checks_read_n_only_to_warn unit (mk_world [] tt []) sample_result
              [sample_choice "stop" " Paris. "; sample_choice "length" "The capital of"]
              [(Str "stop", Str " Paris. "); (Str "length", Str "The capital of")]
              eq_refl sample_choices_have_values)
    as (_ & Ht & Hf & _).
  split.
  - apply Ht; [cbn; lia | reflexivity].
  - apply Hf. reflexivity.
Defined.

(** X8: A success-status response whose JSON has no usable ["choices"] makes the
    attempt of [query_chat_model] fail on the first access to it, before
    anything is logged: with [KeyError] when the JSON is a dict without the
    key, with [TypeError] when it is no dict.  The response is used up. *)
Theorem query_chat_model_attempt_without_choices :
  forall (json_loads : string -> exn + value) (CB : Type) (payload : value)
         (w : world CB) response rest json_response e,
    pending w = inr response :: rest ->
    Response.status_code response < 400 ->
    json_loads (Response.text response) = inr json_response ->
    getitem json_response "choices" = inl e ->
    query_chat_model_attempt json_loads payload w
      = (inl e, mk_world rest (cb_state w) (trace w ++ [Post])) /\
    (forall kvs, json_response = Obj kvs -> e = KeyError (Str "choices")) /\
    ((forall kvs, json_response <> Obj kvs) -> e = TypeError).
Proof.
  intros json_loads CB payload w response rest json_response e Hp Hst Hjs Hget.
  split; [|split].
  - unfold query_chat_model_attempt, bind at 1, requests_post. rewrite Hp.
    unfold bind at 1.
    rewrite OpenAIFacts.raise_for_status_world, (OpenAIFacts.status_error_None _ Hst).
    unfold bind at 1, lift at 1. rewrite Hjs.
    unfold bind at 1, check_truncated_answers, bind at 1, lift at 1.
    rewrite Hget. reflexivity.
  - intros kvs ->. cbn in Hget. destruct (lookup "choices" kvs); congruence.
  - intros Hno. destruct json_response as [| | | | | |kvs]; cbn in Hget;
      try congruence.
Qed.

Lemma query_chat_model_attempt_without_choices_witness :
  query_chat_model_attempt
      (fun _ => inr (Obj [("error", Str "model overloaded")]))
      (Obj sample_payload)
      (mk_world [inr (sample_response 200 "{error: model overloaded}")] tt [])
    = (inl (KeyError (Str "choices")), mk_world [] tt [Post]).
Proof.
  exact (proj1 (query_chat_model_attempt_without_choices
                  (fun _ => inr (Obj [("error", Str "model overloaded")])) unit
                  (Obj sample_payload)
                  (mk_world [inr (sample_response 200 "{error: model overloaded}")] tt [])
                  (sample_response 200 "{error: model overloaded}") []
                  (Obj [("error", Str "model overloaded")])
                  (KeyError (Str "choices"))
                  eq_refl ltac:(cbn; lia) eq_refl eq_refl)).
Defined.

Lemma stripped_contents_not_str choices views :
  Forall2 (fun choice view => choice_has_value choice (fst view) (snd view))
          choices views ->
  forallb (fun view => is_str (snd view)) views = false ->
  stripped_contents choices = inl AttributeError.
Proof.
  induction 1 as [|choice view choices views (kvs & msg & -> & _ & Hm & Hc) _ IH];
    [discriminate|].
  cbn [forallb stripped_contents getitem]. rewrite Hm. cbn [getitem]. rewrite Hc.
  destruct (snd view); cbn [is_str andb strip_method]; try reflexivity.
  intros Hrest. now rewrite (IH Hrest).
Qed.

(** X9: When the content of some choice is not a string (a [null] content, for
    one), the attempt of [query_chat_model] raises [AttributeError] and returns
    no reply at all, not even those of the choices before; the finish-reason
    warnings have been logged by then. *)
Theorem query_chat_model_attempt_content_not_str :
  forall (json_loads : string -> exn + value) (CB : Type)
         (w : world CB) response rest rkvs choices views pkvs n,
    pending w = inr response :: rest ->
    Response.status_code response < 400 ->
    json_loads (Response.text response) = inr (Obj rkvs) ->
    lookup "choices" rkvs = Some (Arr choices) ->
    Forall2 (fun choice view => choice_has_value choice (fst view) (snd view))
            choices views ->
    lookup "n" pkvs = Some n ->
    forallb (fun view => is_str (snd view)) views = false ->
    query_chat_model_attempt json_loads (Obj pkvs) w
      = (inl AttributeError,
         mk_world rest (cb_state w)
                  (trace w ++ [Post] ++ warnings_for (map fst views) n)).
Proof.
  intros json_loads CB w response rest rkvs choices views pkvs n
         Hp Hst Hjs Hch Hwf Hn Hbad.
  unfold query_chat_model_attempt, bind at 1, requests_post. rewrite Hp.
  unfold bind at 1.
  rewrite OpenAIFacts.raise_for_status_world, (OpenAIFacts.status_error_None _ Hst).
  unfold bind at 1, lift at 1. rewrite Hjs.
  unfold bind at 1, check_truncated_answers, check_filtered_answers.
  unfold bind, lift, ret, emit. cbn [getitem iter].
  rewrite Hch. cbn [iter].
  rewrite !(count_finish_reason_value _ _ _ Hwf), Hn,
    (stripped_contents_not_str _ _ Hwf Hbad).
  unfold warnings_for.
  destruct (0 <? count_reason "length" (map fst views));
    destruct (0 <? count_reason "content_filter" (map fst views));
    cbn [pending cb_state trace]; rewrite <- ?app_assoc; cbn [app];
    try rewrite app_nil_r; reflexivity.
Qed.

Lemma query_chat_model_attempt_content_not_str_witness :
  query_chat_model_attempt
      (fun _ => inr (Obj [("choices",
                           Arr [sample_choice "stop" "Paris";
                                Obj [("message", Obj [("content", Null)]);
                                     ("finish_reason", Str "length")]])]))
      (Obj sample_payload)
      (mk_world [inr (sample_response 200 "{...}")] tt [])
    = (inl AttributeError,
       mk_world [] tt [Post; Warning (CompletionsTruncated 1 (Int 5))]).
Proof.
  apply (query_chat_model_attempt_content_not_str
           (fun _ => inr (Obj [("choices",
                                Arr [sample_choice "stop" "Paris";
                                     Obj [("message", Obj [("content", Null)]);
                                          ("finish_reason", Str "length")]])]))
           unit (mk_world [inr (sample_response 200 "{...}")] tt [])
           (sample_response 200 "{...}") []
           [("choices",
             Arr [sample_choice "stop" "Paris";
                  Obj [("message", Obj [("content", Null)]);
                       ("finish_reason", Str "length")]])]
           [sample_choice "stop" "Paris";
            Obj [("message", Obj [("content", Null)]);
                 ("finish_reason", Str "length")]]
           [(Str "stop", Str "Paris"); (Str "length", Null)]
           sample_payload (Int 5)
           eq_refl ltac:(cbn; lia) eq_refl eq_refl).
  - repeat constructor; cbn [fst snd]; unfold choice_has_value, sample_choice;
      do 2 eexists; (split; [reflexivity|]); repeat split.
  - reflexivity.
  - reflexivity.
Defined.

(** ** The event loop *)

Section EventLoop.
Variable json_loads : string -> exn + value.
Context {CB : Type}.
Variable callback : CB -> value -> value -> (exn + value) * CB.
Variable marker : string.

(** The termination marker and the normal end of the stream stop the loop
    alike, and nothing behind the marker is looked at. *)
Lemma consume_events_marker_is_end (events after : list string) :
  forall (tokens : list value) (w : world CB),
    consume_events json_loads callback marker (events ++ marker :: after) tokens w
    = consume_events json_loads callback marker events tokens w.
Proof.
  induction events as [|data events IH]; intros tokens w.
  - cbn. now rewrite String.eqb_refl.
  - cbn [app consume_events].
    destruct (String.eqb data marker); [reflexivity|].
    unfold bind, lift, ret, call_callback.
    destruct (json_loads data) as [e|event_data]; [reflexivity|].
    destruct (getitem event_data "choices") as [e|choices]; [reflexivity|].
    destruct (getitem0 choices) as [e|choice]; [reflexivity|].
    destruct (getitem choice "delta") as [e|delta]; [reflexivity|].
    destruct (contains "content" delta) as [e|[|]]; [reflexivity| |].
    + destruct (getitem delta "content") as [e|token]; [reflexivity|].
      destruct (truthy token); [|apply IH].
      destruct (callback (cb_state w) token choices) as [[e|returned] st];
        [reflexivity | apply IH].
    + cbn [truthy]. apply IH.
Qed.

(** The loop over events that are chunks, as long as the callback returns:
    the calls are made in order and the loop goes on behind them. *)
Lemma consume_events_prefix (events : list string)
    (chunks : list (value * option string)) :
  Forall2 (fun data chunk =>
             data <> marker /\
             chunk_has json_loads data (fst chunk) (option_map Str (snd chunk)))
          events chunks ->
  forall (tail : list string) (tokens : list value) (w : world CB),
    all_returned (snd (fst (run_callback callback (cb_state w) (calls_for chunks))))
      = true ->
    consume_events json_loads callback marker (events ++ tail) tokens w
    = consume_events json_loads callback marker tail
        (tokens ++ returned_values
                     (snd (fst (run_callback callback (cb_state w)
                                             (calls_for chunks)))))
        (mk_world (pending w)
                  (snd (run_callback callback (cb_state w) (calls_for chunks)))
                  (trace w ++ fst (fst (run_callback callback (cb_state w)
                                                     (calls_for chunks))))).
Proof.
  induction 1 as [|data chunk events chunks Hhead _ IH];
    intros tail tokens w Hret.
  - cbn. rewrite !app_nil_r. now destruct w.
  - destruct chunk as [choices content]. cbn [fst snd] in Hhead.
    destruct Hhead
      as [Hne (kvs & first & others & ckvs & delta & Hjs & Hch & Hc1 & Hc2 & Hd & Hc)].
    subst choices first.
    cbn [app consume_events fst snd] in *.
    apply String.eqb_neq in Hne. rewrite Hne.
    unfold bind at 1, lift at 1. rewrite Hjs.
    unfold bind at 1, lift at 1. cbn [getitem]. rewrite Hch.
    unfold bind at 1, lift at 1. cbn [getitem0].
    unfold bind at 1, lift at 1. cbn [getitem]. rewrite Hd.
    unfold bind at 1, lift at 1. cbn [contains].
    unfold bind at 1. cbn [getitem]. rewrite Hc.
    destruct content as [token|]; cbn [option_map calls_for] in *.
    + unfold lift at 1. cbn [truthy].
      destruct (String.eqb token EmptyString); cbn [negb].
      * now apply IH.
      * unfold bind at 1, call_callback. cbn [run_callback] in *.
        destruct (callback (cb_state w) (Str token) (Arr (Obj ckvs :: others)))
          as [r st1].
        specialize (IH tail).
        destruct r as [e|returned].
        -- destruct (run_callback callback st1 (calls_for chunks)) as [[effs rs] st2].
           discriminate Hret.
        -- rewrite IH; cbn [pending cb_state trace].
           ++ destruct (run_callback callback st1 (calls_for chunks))
                as [[effs rs] st2].
              cbn [fst snd returned_values]. rewrite <- !app_assoc. reflexivity.
           ++ destruct (run_callback callback st1 (calls_for chunks))
                as [[effs rs] st2].
              exact Hret.
    + unfold ret at 1. cbn [truthy]. now apply IH.
Qed.

Lemma calls_for_quiet (chunks : list (value * option string)) :
  forallb quiet chunks = true -> calls_for chunks = [].
Proof.
  induction chunks as [|[choices [token|]] chunks IH]; cbn; [reflexivity | |];
    unfold quiet; cbn [snd].
  - destruct (String.eqb token EmptyString); [exact IH | discriminate].
  - exact IH.
Qed.

(** The loop on an event with a token on which the callback raises. *)
Lemma consume_events_callback_raises (data : string) (more : list string)
    (choices : value) (token : string)
    (tokens : list value) (w : world CB) (e : exn) (st : CB) :
  data <> marker ->
  chunk_has json_loads data choices (Some (Str token)) ->
  token <> EmptyString ->
  callback (cb_state w) (Str token) choices = (inl e, st) ->
  consume_events json_loads callback marker (data :: more) tokens w
    = (inl e, mk_world (pending w) st
                       (trace w ++ [Callback (Str token) choices (inl e)])).
Proof.
  intros Hne (kvs & first & others & ckvs & delta & Hjs & Hch & -> & -> & Hd & Hc)
         Htok Hcb.
  cbn [consume_events]. apply String.eqb_neq in Hne. rewrite Hne.
  unfold bind at 1, lift at 1. rewrite Hjs.
  unfold bind at 1, lift at 1. cbn [getitem]. rewrite Hch.
  unfold bind at 1, lift at 1. cbn [getitem0].
  unfold bind at 1, lift at 1. cbn [getitem]. rewrite Hd.
  unfold bind at 1, lift at 1. cbn [contains].
  unfold bind at 1. cbn [getitem]. rewrite Hc.
  unfold lift at 1. cbn [truthy].
  apply String.eqb_neq in Htok. rewrite Htok. cbn [negb].
  unfold bind at 1, call_callback. rewrite Hcb. reflexivity.
Qed.

End EventLoop.

(** X14: The end of the events stops the loop like the termination marker: a
    stream with the marker, whatever events follow it, gives just what the
    same stream cut before the marker gives, in one attempt of
    [query_chat_model_stream] and in the retried call. *)
Theorem stream_ends_at_marker_or_end :
  forall (json_loads : string -> exn + value) (CB : Type)
         (OPENAI_BACKOFF OPENAI_MAX_RETRIES : Z) (payload : value)
         (callback : CB -> value -> value -> (exn + value) * CB)
         (marker : string) (status_code : Z) (text : string)
         (events after : list string)
         (rest : list (exn + Response.t)) (st : CB) (tr : list effect),
    let with_marker :=
      mk_world (inr (Response.mk status_code text (events ++ marker :: after))
                  :: rest) st tr in
    let without_marker :=
      mk_world (inr (Response.mk status_code text events) :: rest) st tr in
    query_chat_model_stream_attempt json_loads payload callback marker with_marker
      = query_chat_model_stream_attempt json_loads payload callback marker
                                        without_marker /\
    query_chat_model_stream json_loads OPENAI_BACKOFF OPENAI_MAX_RETRIES
                            payload callback marker with_marker
      = query_chat_model_stream json_loads OPENAI_BACKOFF OPENAI_MAX_RETRIES
                                payload callback marker without_marker.
Proof.
  intros json_loads CB B R payload callback marker status_code text events after
         rest st tr with_marker without_marker.
  assert (Hattempt :
            query_chat_model_stream_attempt json_loads payload callback marker
                                            with_marker
            = query_chat_model_stream_attempt json_loads payload callback marker
                                              without_marker).
  { unfold query_chat_model_stream_attempt, bind at 1 6, requests_post.
    subst with_marker without_marker. cbn [pending cb_state trace].
    unfold bind at 1 5. rewrite !OpenAIFacts.raise_for_status_world.
    change (status_error (Response.mk status_code text (events ++ marker :: after)))
      with (status_error (Response.mk status_code text events)).
    destruct (status_error (Response.mk status_code text events));
      [reflexivity|].
    unfold bind at 1 4, emit at 1 3. cbn [pending cb_state trace].
    unfold bind at 1 3, try_finally. cbn [Response.events].
    rewrite consume_events_marker_is_end. reflexivity. }
  split; [exact Hattempt|].
  unfold query_chat_model_stream, openai_retry. cbn [retrying].
  rewrite Hattempt. reflexivity.
Qed.

(** X15: When an event behind some chunks cannot be used, because it is not
    JSON or because its ["choices"] list is empty (then with [IndexError]),
    the attempt raises that exception and returns nothing of what it has
    collected; the callback has been called for the chunks before, and the
    client is closed. *)
Theorem stream_breaks_off :
  forall (json_loads : string -> exn + value) (CB : Type) (payload : value)
         (callback : CB -> value -> value -> (exn + value) * CB)
         (marker : string) (w : world CB)
         response rest events chunks bad more e,
    pending w = inr response :: rest ->
    Response.status_code response < 400 ->
    Response.events response = events ++ bad :: more ->
    Forall2 (fun data chunk =>
               data <> marker /\
               chunk_has json_loads data (fst chunk) (option_map Str (snd chunk)))
            events chunks ->
    all_returned (snd (fst (run_callback callback (cb_state w) (calls_for chunks))))
      = true ->
    bad <> marker ->
    json_loads bad = inl e \/
    (exists kvs, json_loads bad = inr (Obj kvs) /\
                 lookup "choices" kvs = Some (Arr []) /\
                 e = IndexError) ->
    query_chat_model_stream_attempt json_loads payload callback marker w
      = (inl e,
         mk_world rest
                  (snd (run_callback callback (cb_state w) (calls_for chunks)))
                  (trace w ++ [Post; SSEOpen]
                     ++ fst (fst (run_callback callback (cb_state w)
                                               (calls_for chunks)))
                     ++ [SSEClose])).
Proof.
  intros json_loads CB payload callback marker w response rest events chunks
         bad more e Hp Hst Hev Hchunks Hret Hne Hbad.
  unfold query_chat_model_stream_attempt, bind at 1, requests_post. rewrite Hp.
  unfold bind at 1.
  rewrite OpenAIFacts.raise_for_status_world, (OpenAIFacts.status_error_None _ Hst).
  unfold bind at 1, emit at 1. cbn [pending cb_state trace].
  unfold bind at 1, try_finally. rewrite Hev.
  rewrite (consume_events_prefix _ _ _ _ _ Hchunks) by exact Hret.
  cbn [pending cb_state trace consume_events].
  apply String.eqb_neq in Hne. rewrite Hne.
  destruct Hbad as [Hbad | (kvs & Hbad & Hch & ->)].
  - unfold bind at 1, lift at 1. rewrite Hbad. cbn [emit pending cb_state trace].
    rewrite <- !app_assoc. reflexivity.
  - unfold bind at 1, lift at 1. rewrite Hbad.
    unfold bind at 1, lift at 1. cbn [getitem]. rewrite Hch.
    unfold bind at 1, lift at 1. cbn [getitem0 emit pending cb_state trace].
    rewrite <- !app_assoc. reflexivity.
Qed.

Lemma sample_chunks_prefix_have (n : nat) :
  Forall2 (fun data chunk =>
             data <> "[DONE]" /\
             chunk_has sample_stream_loads data (fst chunk)
                       (option_map Str (snd chunk)))
          (firstn n sample_events) (firstn n sample_chunks).
Proof.
  pose proof OpenAIFacts.sample_chunks_have as H.
  revert n. induction H as [|data chunk events chunks Hhead _ IH]; intros n.
  - rewrite !firstn_nil. constructor.
  - destruct n; cbn [firstn]; constructor; [exact Hhead | apply IH].
Qed.

Lemma stream_breaks_off_witness :
  query_chat_model_stream_attempt sample_stream_loads (Obj sample_payload)
      sample_callback "[DONE]"
      (mk_world [inr (Response.mk 200 EmptyString
                        ["{delta: {role: assistant}}"; "{delta: {content: Par}}";
                         "<html>"; "[DONE]"])]
                EmptyString [])
    = (inl (JSONDecodeError "<html>"),
       mk_world [] "Par"
         [Post; SSEOpen;
          Callback (Str "Par")
                   (Arr [Obj [("index", Int 0);
                              ("delta", Obj [("content", Str "Par")]);
                              ("finish_reason", Null)]])
                   (inr (Str "Par"));
          SSEClose]).
Proof.
  apply (stream_breaks_off sample_stream_loads string (Obj sample_payload)
           sample_callback "[DONE]"
           (mk_world [inr (Response.mk 200 EmptyString
                             ["{delta: {role: assistant}}"; "{delta: {content: Par}}";
                              "<html>"; "[DONE]"])]
                     EmptyString [])
           (Response.mk 200 EmptyString
              ["{delta: {role: assistant}}"; "{delta: {content: Par}}";
               "<html>"; "[DONE]"])
           []
           (firstn 2 sample_events) (firstn 2 sample_chunks)
           "<html>" ["[DONE]"] (JSONDecodeError "<html>")
           eq_refl ltac:(cbn; lia) eq_refl (sample_chunks_prefix_have 2) eq_refl).
  - discriminate.
  - left. reflexivity.
Defined.

(** X16: [default_streaming_callback] does not fit the call that
    [query_chat_model_stream] makes: its signature has the parameter [token]
    only, and the call passes [event_data] by keyword, so binding the
    arguments fails with [TypeError] before the body runs (with [**kwargs]
    behind [token] the same body would print and return the token).  Hence on
    the first event that carries a non-empty content the attempt raises
    [TypeError]; nothing has been printed, no reply is returned, and the
    client is closed. *)
Theorem default_streaming_callback_rejected :
  forall (json_loads : string -> exn + value) (payload : value) (marker : string)
         (w : world (list value)) response rest events chunks
         data choices token more,
    pending w = inr response :: rest ->
    Response.status_code response < 400 ->
    Response.events response = events ++ data :: more ->
    Forall2 (fun data chunk =>
               data <> marker /\
               chunk_has json_loads data (fst chunk) (option_map Str (snd chunk)))
            events chunks ->
    forallb quiet chunks = true ->
    data <> marker ->
    chunk_has json_loads data choices (Some (Str token)) ->
    token <> EmptyString ->
    query_chat_model_stream_attempt json_loads payload
        (as_callback default_streaming_callback) marker w
      = (inl TypeError,
         mk_world rest (cb_state w)
                  (trace w ++ [Post; SSEOpen;
                               Callback (Str token) choices (inl TypeError);
                               SSEClose])) /\
    (forall stdout tok event_data,
       as_callback default_streaming_callback stdout tok event_data
         = (inl TypeError, stdout)) /\
    (forall stdout tok event_data,
       as_callback (with_var_keyword default_streaming_callback)
                   stdout tok event_data
         = (inr tok, stdout ++ [tok])) /\
    (forall stdout tok,
       py_call default_streaming_callback stdout [tok] []
         = (inr tok, stdout ++ [tok])).
Proof.
  intros json_loads payload marker w response rest events chunks data choices
         token more Hp Hst Hev Hchunks Hquiet Hne Hchunk Htok.
  split; [|repeat split].
  unfold query_chat_model_stream_attempt, bind at 1, requests_post. rewrite Hp.
  unfold bind at 1.
  rewrite OpenAIFacts.raise_for_status_world, (OpenAIFacts.status_error_None _ Hst).
  unfold bind at 1, emit at 1. cbn [pending cb_state trace].
  unfold bind at 1, try_finally. rewrite Hev.
  rewrite (consume_events_prefix _ _ _ _ _ Hchunks);
    rewrite (calls_for_quiet _ Hquiet); [|reflexivity].
  cbn [run_callback fst snd returned_values pending cb_state trace].
  match goal with
  | |- context [consume_events _ ?cb _ (data :: more) ?toks ?W] =>
      rewrite (consume_events_callback_raises json_loads cb marker data more
                 choices token toks W TypeError (cb_state w) Hne Hchunk Htok eq_refl)
  end.
  cbn [emit pending cb_state trace]. rewrite !app_nil_r, <- !app_assoc. reflexivity.
Qed.

Lemma default_streaming_callback_rejected_witness :
  query_chat_model_stream_attempt sample_stream_loads (Obj sample_payload)
      (as_callback default_streaming_callback) "[DONE]"
      (mk_world [inr (Response.mk 200 EmptyString (sample_events ++ ["[DONE]"]))]
                [] [])
    = (inl TypeError,
       mk_world [] []
         [Post; SSEOpen;
          Callback (Str "Par")
                   (Arr [Obj [("index", Int 0);
                              ("delta", Obj [("content", Str "Par")]);
                              ("finish_reason", Null)]])
                   (inl TypeError);
          SSEClose]).
Proof.
  apply (default_streaming_callback_rejected sample_stream_loads
           (Obj sample_payload) "[DONE]"
           (mk_world [inr (Response.mk 200 EmptyString
                             (sample_events ++ ["[DONE]"]))] [] [])
           (Response.mk 200 EmptyString (sample_events ++ ["[DONE]"]))
           []
           (firstn 1 sample_events) (firstn 1 sample_chunks)
           "{delta: {content: Par}}"
           (Arr [Obj [("index", Int 0);
                      ("delta", Obj [("content", Str "Par")]);
                      ("finish_reason", Null)]])
           "Par"
           ["{delta: {content: }}"; "{delta: {content: is}}"; "[DONE]"]
           eq_refl ltac:(cbn; lia) eq_refl (sample_chunks_prefix_have 1) eq_refl).
  - discriminate.
  - unfold chunk_has. do 5 eexists.
    (split; [reflexivity|]); (split; [reflexivity|]);
    (split; [reflexivity|]); (split; [reflexivity|]); split; reflexivity.
  - discriminate.
Defined.

End OpenAIInvariants.
